(** * RewardArena: the reward engine, the episode state machine and the
      reward-guided policy, embedded from the JavaScript sources.

    Sources embedded here:
    - [src/utils/rewards.js]: the four standalone reward functions;
    - [src/utils/simulation.js] (second generation, the one with
      [getReward], [previousDistance] and [successCount]): the
      [SimulationEngine] class;
    - [src/components/SimulationCanvas.jsx] (second generation): the
      closure [updateAgent] and the body of the [animate] loop.

    Also embedded, for the properties proved beyond the reward contract:
    [generateRewardGradient] of rewards.js (pixel loop, colours, typed-array
    stores), the [for] loop of [animate], [resetSuccessCount], the
    first-generation [SimulationEngine] of simulation.js (module [Gen1]:
    hops) and [handleSuccess] of App.jsx.

    Number model.  A JavaScript number is an IEEE-754 double.  Two models
    of it are used.

    - [num] (module [JS]): a real number, or one of the three special
      values [+Infinity], [-Infinity], [NaN].  Arithmetic on finite values
      is exact real arithmetic (rounding, overflow and underflow are not
      modelled, and zero carries no sign: a zero divisor acts as [+0]); the
      special values follow IEEE-754, so that division by zero, [Math.max]
      on [NaN] and comparisons with [NaN] behave as they do in the program.
      The general theorems are stated in this model.  Where one of them
      gives a value by a formula on reals, the formula is the program's
      expression read in exact arithmetic, and the double the program
      computes may differ from it by rounding; what does not depend on
      rounding (which branch is taken, what is stored where, orderings,
      bounds) is stated as such.

    - [F64]: binary64 itself, on the kernel's primitive floats.  The reward
      functions, [getReward] and the policy are embedded a second time with
      the same control flow, and evaluated bit for bit on concrete inputs.
      This is where an identity of real arithmetic is shown to fail in the
      program. *)

From Stdlib Require Import Reals Lra Lia List String Bool Arith.
From Stdlib Require Floats ZArith.
Import ListNotations.

Set Implicit Arguments.

(* ================================================================== *)
(** ** JavaScript numbers *)
(* ================================================================== *)

Module JS.

Inductive num : Type :=
| Fin (r : R)
| PInf
| NInf
| NaN.

Local Open Scope R_scope.

(** Three-way comparison of two reals. *)
Definition Rcmp (a b : R) : comparison :=
  match total_order_T a b with
  | inleft (left _) => Lt
  | inleft (right _) => Eq
  | inright _ => Gt
  end.

(** Unary minus. *)
Definition neg (a : num) : num :=
  match a with
  | Fin r => Fin (- r)
  | PInf => NInf
  | NInf => PInf
  | NaN => NaN
  end.

(** [a + b]; on finite values the exact sum, of which the program computes
    the rounding. *)
Definition add (a b : num) : num :=
  match a, b with
  | NaN, _ | _, NaN => NaN
  | Fin r, Fin s => Fin (r + s)
  | PInf, NInf | NInf, PInf => NaN
  | PInf, _ | _, PInf => PInf
  | NInf, _ | _, NInf => NInf
  end.

(** [a - b]. *)
Definition sub (a b : num) : num := add a (neg b).

(** An infinity of the sign of [c] ([NaN] for a zero). *)
Definition signed_inf (c : comparison) : num :=
  match c with
  | Gt => PInf
  | Lt => NInf
  | Eq => NaN
  end.

(** [a * b]; on finite values the exact product. *)
Definition mul (a b : num) : num :=
  match a, b with
  | NaN, _ | _, NaN => NaN
  | Fin r, Fin s => Fin (r * s)
  | Fin r, PInf | PInf, Fin r => signed_inf (Rcmp r 0)
  | Fin r, NInf | NInf, Fin r => signed_inf (Rcmp 0 r)
  | PInf, PInf | NInf, NInf => PInf
  | PInf, NInf | NInf, PInf => NInf
  end.

(** [a / b]; on finite values the exact quotient; a zero divisor is [+0]. *)
Definition div (a b : num) : num :=
  match a, b with
  | NaN, _ | _, NaN => NaN
  | Fin r, Fin s =>
      match Rcmp s 0 with
      | Eq => signed_inf (Rcmp r 0)
      | _ => Fin (r / s)
      end
  | Fin _, (PInf | NInf) => Fin 0
  | PInf, Fin s => match Rcmp s 0 with Lt => NInf | _ => PInf end
  | NInf, Fin s => match Rcmp s 0 with Lt => PInf | _ => NInf end
  | (PInf | NInf), (PInf | NInf) => NaN
  end.

(** [a < b], [a <= b], [a > b], [a === b] on numbers: all four are
    false as soon as one side is [NaN]. *)
Definition ltb (a b : num) : bool :=
  match a, b with
  | NaN, _ | _, NaN => false
  | Fin r, Fin s => match Rcmp r s with Lt => true | _ => false end
  | NInf, (Fin _ | PInf) => true
  | Fin _, PInf => true
  | _, _ => false
  end.

Definition eqb (a b : num) : bool :=
  match a, b with
  | Fin r, Fin s => match Rcmp r s with Eq => true | _ => false end
  | PInf, PInf | NInf, NInf => true
  | _, _ => false
  end.

Definition leb (a b : num) : bool := ltb a b || eqb a b.
Definition gtb (a b : num) : bool := ltb b a.

(** [Math.max(a, b)] and [Math.min(a, b)]: [NaN] when either is. *)
Definition max (a b : num) : num :=
  match a, b with
  | NaN, _ | _, NaN => NaN
  | _, _ => if ltb a b then b else a
  end.

Definition min (a b : num) : num :=
  match a, b with
  | NaN, _ | _, NaN => NaN
  | _, _ => if ltb b a then b else a
  end.

(** [Math.sqrt(a)]; on finite values the exact square root. *)
Definition sqrt (a : num) : num :=
  match a with
  | Fin r => match Rcmp r 0 with Lt => NaN | _ => Fin (R_sqrt.sqrt r) end
  | PInf => PInf
  | NInf | NaN => NaN
  end.

(** [Math.pow(a, n)] for a natural exponent [n]. *)
Definition pow (a : num) (n : nat) : num :=
  match n with
  | O => Fin 1
  | S _ =>
      match a with
      | Fin r => Fin (r ^ n)
      | PInf => PInf
      | NInf => if Nat.even n then PInf else NInf
      | NaN => NaN
      end
  end.

(** [Math.exp(a)]; on finite values the exact exponential, which is never
    0 and is 1 at 0 only. *)
Definition exp (a : num) : num :=
  match a with
  | Fin r => Fin (Rtrigo_def.exp r)
  | PInf => PInf
  | NInf => Fin 0
  | NaN => NaN
  end.

(** Truthiness of a nullable number, as [||] and [if] see it:
    [null], [0] and [NaN] are falsy. *)
Definition truthy (a : option num) : bool :=
  match a with
  | None => false
  | Some NaN => false
  | Some (Fin r) => match Rcmp r 0 with Eq => false | _ => true end
  | Some _ => true
  end.

(** [a || b] where [a] is a nullable number and [b] a number. *)
Definition or_else (a : option num) (b : num) : num :=
  match a with
  | Some v => if truthy a then v else b
  | None => b
  end.

End JS.

Import JS.

Declare Scope js_scope.
Delimit Scope js_scope with js.
Bind Scope js_scope with num.
Notation "a + b" := (add a b) : js_scope.
Notation "a - b" := (sub a b) : js_scope.
Notation "a * b" := (mul a b) : js_scope.
Notation "a / b" := (div a b) : js_scope.
Notation "- a" := (neg a) : js_scope.
Notation "a <? b" := (ltb a b) : js_scope.
Notation "a <=? b" := (leb a b) : js_scope.
Notation "a >? b" := (gtb a b) : js_scope.
Notation "a === b" := (eqb a b) (at level 70, no associativity) : js_scope.

(* ================================================================== *)
(** ** Positions and the Euclidean distance *)
(* ================================================================== *)

(** A position or a vector: the object [{ x, y }]. *)
Record Position : Type := { x : num; y : num }.

(** The position with finite coordinates [a] and [b]. *)
Definition at_ (a b : R) : Position := {| x := Fin a; y := Fin b |}.

(** The expression
    [Math.sqrt(Math.pow(p.x - q.x, 2) + Math.pow(p.y - q.y, 2))]
    that every reward function and [getDistance] spell out. *)
Definition euclidean (p q : Position) : num :=
  sqrt (pow (x p - x q) 2 + pow (y p - y q) 2)%js.

(** The same distance on real coordinates. *)
Definition distR (ax ay gx gy : R) : R :=
  R_sqrt.sqrt ((ax - gx) ^ 2 + (ay - gy) ^ 2).

(* ================================================================== *)
(** ** rewards.js *)
(* ================================================================== *)

(** [calculateSparseReward(agentPos, goalPos, threshold)]. *)
Definition calculateSparseReward (agentPos goalPos : Position) (threshold : num)
  : num :=
  let distance := euclidean agentPos goalPos in
  if (distance <? threshold)%js then Fin 1 else Fin 0.

(** [calculateDistanceShapingReward(currentPos, nextPos, goalPos, gamma,
    baseReward)]. *)
Definition calculateDistanceShapingReward
  (currentPos nextPos goalPos : Position) (gamma baseReward : num) : num :=
  let phiCurrent := (- euclidean currentPos goalPos)%js in
  let phiNext := (- euclidean nextPos goalPos)%js in
  let shapingSignal := ((gamma * phiNext) - phiCurrent)%js in
  (baseReward + shapingSignal)%js.

(** [calculatePRMReward(currentPos, goalPos, initialDistance,
    learningRate)]; [initialDistance] may be [null]. *)
Definition calculatePRMReward (currentPos goalPos : Position)
  (initialDistance : option num) (learningRate : num) : num :=
  let distance := euclidean currentPos goalPos in
  match initialDistance with
  | None => Fin 0
  | Some initialDistance =>
      if (initialDistance === Fin 0)%js then Fin 0
      else
        let progress :=
          max (Fin 0) ((initialDistance - distance) / initialDistance)%js in
        (learningRate * progress)%js
  end.

(** [calculateSemanticReward(agentPos, goalPos, width, height)]; the
    canvas size is not used. *)
Definition calculateSemanticReward (agentPos goalPos : Position)
  (width height : num) : num :=
  let distance := euclidean agentPos goalPos in
  let sigma := Fin 100 in
  exp (- pow distance 2 / (Fin 2 * pow sigma 2))%js.

(* ================================================================== *)
(** ** The physics collaborator (Matter.js) *)
(* ================================================================== *)

(** What the program reads and writes of a Matter.js body. *)
Record Body : Type := { position : Position; velocity : Position }.

(** [Body.setPosition(body, p)] and [Body.setVelocity(body, v)]. *)
Definition Body_setPosition (b : Body) (p : Position) : Body :=
  {| position := p; velocity := velocity b |}.

Definition Body_setVelocity (b : Body) (v : Position) : Body :=
  {| position := position b; velocity := v |}.

(** [Engine.update(engine, delta)] is the external integrator.  The world
    holds the agent and a static goal, so its effect is a function from the
    agent's body to the agent's body. *)
Class Physics : Type := { Engine_update : num -> Body -> Body }.

(** A kinematic integrator, one possible collaborator: the position
    advances by the commanded velocity (a body without air friction and
    without forces). *)
Definition kinematic : Physics :=
  {| Engine_update := fun _ b =>
       {| position := {| x := (x (position b) + x (velocity b))%js;
                         y := (y (position b) + y (velocity b))%js |};
          velocity := velocity b |} |}.

(* ================================================================== *)
(** ** simulation.js: the class SimulationEngine *)
(* ================================================================== *)

(** An entry of [positionHistory]: [{ ...currentPos, time: Date.now() }]. *)
Record HistoryEntry : Type := { entry : Position; time : num }.

(** The fields of a [SimulationEngine] that the simulation reads or
    writes (the renderer is left out). *)
Record SimulationEngine : Type := {
  width : num;
  height : num;
  agent : Body;
  goal : Body;
  agentVelocity : Position;
  positionHistory : list HistoryEntry;
  maxHistoryLength : nat;
  successThreshold : num;
  previousDistance : option num;
  initialDistance : option num;
  successCount : nat
}.

(** What [step] returns: [{ reward, isDone }]. *)
Record StepResult : Type := { reward : num; isDone : bool }.

Definition zero : Position := {| x := Fin 0; y := Fin 0 |}.

(** [new SimulationEngine(canvasRef, width, height)]. *)
Definition constructor (width height : num) : SimulationEngine :=
  {| width := width;
     height := height;
     agent := {| position := {| x := (width / Fin 4)%js;
                                y := (height / Fin 2)%js |};
                 velocity := zero |};
     goal := {| position := {| x := (width * Fin 0.75)%js;
                               y := (height / Fin 2)%js |};
                velocity := zero |};
     agentVelocity := zero;
     positionHistory := [];
     maxHistoryLength := 10;
     successThreshold := Fin 35;
     previousDistance := None;
     initialDistance := None;
     successCount := 0 |}.

Definition getAgentPosition (this : SimulationEngine) : Position :=
  {| x := x (position (agent this)); y := y (position (agent this)) |}.

Definition getGoalPosition (this : SimulationEngine) : Position :=
  {| x := x (position (goal this)); y := y (position (goal this)) |}.

Definition getDistance (this : SimulationEngine) : num :=
  let agentPos := getAgentPosition this in
  let goalPos := getGoalPosition this in
  euclidean agentPos goalPos.

(** [updateAgentVelocity(vx, vy)]: the velocity is only stored. *)
Definition updateAgentVelocity (vx vy : num) (this : SimulationEngine)
  : SimulationEngine :=
  {| width := width this; height := height this;
     agent := agent this; goal := goal this;
     agentVelocity := {| x := vx; y := vy |};
     positionHistory := positionHistory this;
     maxHistoryLength := maxHistoryLength this;
     successThreshold := successThreshold this;
     previousDistance := previousDistance this;
     initialDistance := initialDistance this;
     successCount := successCount this |}.

(** Assignment to [this.previousDistance] and [this.initialDistance]. *)
Definition setDistances (prev init : option num) (this : SimulationEngine)
  : SimulationEngine :=
  {| width := width this; height := height this;
     agent := agent this; goal := goal this;
     agentVelocity := agentVelocity this;
     positionHistory := positionHistory this;
     maxHistoryLength := maxHistoryLength this;
     successThreshold := successThreshold this;
     previousDistance := prev;
     initialDistance := init;
     successCount := successCount this |}.

(** [getReward(type, gamma, learningRate, width, height)]: the new engine
    state (the two distance fields are written) and the returned reward. *)
Definition getReward (type : string) (gamma learningRate width height : num)
  (this : SimulationEngine) : SimulationEngine * num :=
  let dist := getDistance this in
  let prevDist :=
    match previousDistance this with Some d => d | None => dist end in
  let initialDistance' :=
    match initialDistance this with Some d => Some d | None => Some dist end in
  let this' := setDistances (Some dist) initialDistance' this in
  let r :=
    if (type =? "sparse")%string then
      if (dist <? successThreshold this')%js then Fin 1 else Fin 0
    else if (type =? "shaping")%string then
      let phiNext := (- dist)%js in
      let phiCurr := (- prevDist)%js in
      ((gamma * phiNext) - phiCurr)%js
    else if (type =? "prm")%string then
      let initialDist :=
        match initialDistance' with Some d => d | None => NaN end in
      let progress := max (Fin 0) ((initialDist - dist) / initialDist)%js in
      (learningRate * progress)%js
    else if (type =? "semantic")%string then
      let sigma := Fin 100 in
      exp (- pow dist 2 / (Fin 2 * pow sigma 2))%js
    else Fin 0 in
  (this', r).

Definition isSuccess (this : SimulationEngine) : bool :=
  (getDistance this <? successThreshold this)%js.

(** [reset()]. *)
Definition reset (this : SimulationEngine) : SimulationEngine :=
  let agent1 :=
    Body_setPosition (agent this)
      {| x := (width this / Fin 4)%js; y := (height this / Fin 2)%js |} in
  let agent2 := Body_setVelocity agent1 zero in
  {| width := width this; height := height this;
     agent := agent2; goal := goal this;
     agentVelocity := zero;
     positionHistory := [];
     maxHistoryLength := maxHistoryLength this;
     successThreshold := successThreshold this;
     previousDistance := None;
     initialDistance := None;
     successCount := successCount this |}.

(** [this.successCount++]. *)
Definition incrSuccessCount (this : SimulationEngine) : SimulationEngine :=
  {| width := width this; height := height this;
     agent := agent this; goal := goal this;
     agentVelocity := agentVelocity this;
     positionHistory := positionHistory this;
     maxHistoryLength := maxHistoryLength this;
     successThreshold := successThreshold this;
     previousDistance := previousDistance this;
     initialDistance := initialDistance this;
     successCount := S (successCount this) |}.

Definition setAgent (b : Body) (this : SimulationEngine) : SimulationEngine :=
  {| width := width this; height := height this;
     agent := b; goal := goal this;
     agentVelocity := agentVelocity this;
     positionHistory := positionHistory this;
     maxHistoryLength := maxHistoryLength this;
     successThreshold := successThreshold this;
     previousDistance := previousDistance this;
     initialDistance := initialDistance this;
     successCount := successCount this |}.

Definition setPositionHistory (h : list HistoryEntry) (this : SimulationEngine)
  : SimulationEngine :=
  {| width := width this; height := height this;
     agent := agent this; goal := goal this;
     agentVelocity := agentVelocity this;
     positionHistory := h;
     maxHistoryLength := maxHistoryLength this;
     successThreshold := successThreshold this;
     previousDistance := previousDistance this;
     initialDistance := initialDistance this;
     successCount := successCount this |}.

(** [h.push(e); if (h.length > max) h.shift();] *)
Definition pushBounded (A : Type) (cap : nat) (h : list A) (e : A) : list A :=
  let h := h ++ [e] in
  if (cap <? List.length h)%nat then tl h else h.

(** [step(rewardType, gamma, learningRate, width, height)]; [now] is what
    [Date.now()] returns in this call. *)
Definition step `{Physics} (now : num) (rewardType : string)
  (gamma learningRate width height : num) (this : SimulationEngine)
  : SimulationEngine * StepResult :=
  (* 1. reward for the current state, before the physics update *)
  let '(this, reward) :=
    getReward rewardType gamma learningRate width height this in
  (* 2. success and reset *)
  if isSuccess this then
    let this := incrSuccessCount this in
    let this := reset this in
    (this, {| reward := Fin 1; isDone := true |})
  else
    (* 3. apply the stored velocity *)
    let this := setAgent (Body_setVelocity (agent this) (agentVelocity this)) this in
    (* 4. physics update *)
    let this := setAgent (Engine_update (Fin 1000 / Fin 60)%js (agent this)) this in
    (* position history *)
    let currentPos := getAgentPosition this in
    let this :=
      setPositionHistory
        (pushBounded (maxHistoryLength this) (positionHistory this)
           {| entry := currentPos; time := now |}) this in
    (this, {| reward := reward; isDone := false |}).

Definition getSuccessCount (this : SimulationEngine) : nat := successCount this.

(* ================================================================== *)
(** ** SimulationCanvas.jsx: the reward-guided policy *)
(* ================================================================== *)

(** A sampling offset [{ dx, dy }]. *)
Record Sample : Type := { dx : num; dy : num }.

Definition sampleDistance : num := Fin 10.

Definition samples : list Sample :=
  [ {| dx := sampleDistance; dy := Fin 0 |};
    {| dx := (- sampleDistance)%js; dy := Fin 0 |};
    {| dx := Fin 0; dy := sampleDistance |};
    {| dx := Fin 0; dy := (- sampleDistance)%js |};
    {| dx := (sampleDistance * Fin 0.707)%js;
       dy := (sampleDistance * Fin 0.707)%js |};
    {| dx := (- sampleDistance * Fin 0.707)%js;
       dy := (sampleDistance * Fin 0.707)%js |};
    {| dx := (sampleDistance * Fin 0.707)%js;
       dy := (- sampleDistance * Fin 0.707)%js |};
    {| dx := (- sampleDistance * Fin 0.707)%js;
       dy := (- sampleDistance * Fin 0.707)%js |} ].

(** The [switch (rewardType)] inside the sampling loop: the reward
    expected at [testPos].  There is no [default] case: the initial
    [expectedReward = 0] stays. *)
Definition expectedRewardAt (rewardType : string) (gamma learningRate w h : num)
  (sim : SimulationEngine) (goalPos : Position) (distance : num)
  (testPos : Position) : num :=
  let testDistance := euclidean testPos goalPos in
  if (rewardType =? "sparse")%string then
    calculateSparseReward testPos goalPos (successThreshold sim)
  else if (rewardType =? "shaping")%string then
    let phiCurrent := (- distance)%js in
    let phiNext := (- testDistance)%js in
    ((gamma * phiNext) - phiCurrent)%js
  else if (rewardType =? "prm")%string then
    let initialDist := or_else (initialDistance sim) distance in
    calculatePRMReward testPos goalPos (Some initialDist) learningRate
  else if (rewardType =? "semantic")%string then
    calculateSemanticReward testPos goalPos w h
  else Fin 0.

(** The body of [samples.forEach]: the pair is
    [(bestDirection, maxExpectedReward)]. *)
Definition trySample (rewardType : string) (gamma learningRate w h : num)
  (sim : SimulationEngine) (agentPos goalPos : Position) (distance : num)
  (best : Position * num) (sample : Sample) : Position * num :=
  let testPos :=
    {| x := (x agentPos + dx sample)%js; y := (y agentPos + dy sample)%js |} in
  (* clamp to canvas bounds *)
  let testPos :=
    {| x := max (Fin 15) (min (w - Fin 15)%js (x testPos));
       y := max (Fin 15) (min (h - Fin 15)%js (y testPos)) |} in
  let expectedReward :=
    expectedRewardAt rewardType gamma learningRate w h sim goalPos distance
      testPos in
  if (expectedReward >? snd best)%js
  then ({| x := dx sample; y := dy sample |}, expectedReward)
  else best.

(** The block "Normalize direction", with its fallback toward the goal. *)
Definition normalizeDirection (agentPos goalPos bestDirection : Position)
  : Position :=
  let dirLength :=
    sqrt (x bestDirection * x bestDirection
          + y bestDirection * y bestDirection)%js in
  if (dirLength >? Fin 0)%js then
    {| x := (x bestDirection / dirLength)%js;
       y := (y bestDirection / dirLength)%js |}
  else
    let dx := (x goalPos - x agentPos)%js in
    let dy := (y goalPos - y agentPos)%js in
    let dist := sqrt (dx * dx + dy * dy)%js in
    if (dist >? Fin 0)%js then
      {| x := (dx / dist)%js; y := (dy / dist)%js |}
    else bestDirection.

(** The update of [momentumRef.current] and its normalization. *)
Definition blendMomentum (momentum bestDirection : Position) : Position :=
  let momentumDecay := Fin 0.7 in
  let m :=
    {| x := (x momentum * momentumDecay
             + x bestDirection * (Fin 1 - momentumDecay))%js;
       y := (y momentum * momentumDecay
             + y bestDirection * (Fin 1 - momentumDecay))%js |} in
  let momLength := sqrt (x m * x m + y m * y m)%js in
  if (momLength >? Fin 0)%js then
    {| x := (x m / momLength)%js; y := (y m / momLength)%js |}
  else m.

(** [finalDirection] and its normalization. *)
Definition blendFinal (bestDirection momentum : Position) : Position :=
  let momentumWeight := Fin 0.3 in
  let finalDirection :=
    {| x := (x bestDirection * (Fin 1 - momentumWeight)
             + x momentum * momentumWeight)%js;
       y := (y bestDirection * (Fin 1 - momentumWeight)
             + y momentum * momentumWeight)%js |} in
  let finalLength :=
    sqrt (x finalDirection * x finalDirection
          + y finalDirection * y finalDirection)%js in
  if (finalLength >? Fin 0)%js then
    {| x := (x finalDirection / finalLength)%js;
       y := (y finalDirection / finalLength)%js |}
  else finalDirection.

(** [Math.min(4, Math.max(1.5, distance * 0.015))]. *)
Definition baseSpeed (distance : num) : num :=
  min (Fin 4) (max (Fin 1.5) (distance * Fin 0.015)%js).

(** The direction the policy settles on before momentum is applied:
    the sampling loop followed by "Normalize direction". *)
Definition chosenDirection (rewardType : string) (gamma learningRate w h : num)
  (currentReward : num) (sim : SimulationEngine) : Position :=
  let agentPos := getAgentPosition sim in
  let goalPos := getGoalPosition sim in
  let distance := getDistance sim in
  let best :=
    fold_left
      (trySample rewardType gamma learningRate w h sim agentPos goalPos distance)
      samples (zero, currentReward) in
  normalizeDirection agentPos goalPos (fst best).

(** [updateAgent(currentReward)]: the closure reads the props
    [rewardType], [gamma], [learningRate], [width], [height], and reads and
    writes the engine [sim] and [momentumRef.current]. *)
Definition updateAgent (rewardType : string) (gamma learningRate w h : num)
  (currentReward : num) (st : SimulationEngine * Position)
  : SimulationEngine * Position :=
  let '(sim, momentum) := st in
  let distance := getDistance sim in
  (* stop if we have reached success *)
  if (distance <=? successThreshold sim)%js then
    (updateAgentVelocity (Fin 0) (Fin 0) sim, zero)
  else
    let bestDirection :=
      chosenDirection rewardType gamma learningRate w h currentReward sim in
    let momentum := blendMomentum momentum bestDirection in
    let finalDirection := blendFinal bestDirection momentum in
    let baseSpeed := baseSpeed distance in
    let vx := (x finalDirection * baseSpeed)%js in
    let vy := (y finalDirection * baseSpeed)%js in
    (updateAgentVelocity vx vy sim, momentum).

(** The policy state kept in React refs next to the engine. *)
Record PolicyState : Type := {
  momentum : Position;
  rewardHistory : list num;
  lastReward : num
}.

(** One iteration of the [for] loop of [animate]: reward, policy, step,
    bookkeeping of the policy state. *)
Definition animateIteration `{Physics} (now : num) (rewardType : string)
  (gamma learningRate w h : num) (st : SimulationEngine * PolicyState)
  : SimulationEngine * PolicyState * StepResult :=
  let '(sim, pol) := st in
  let '(sim, currentReward) := getReward rewardType gamma learningRate w h sim in
  let '(sim, mom) :=
    updateAgent rewardType gamma learningRate w h currentReward
      (sim, momentum pol) in
  let '(sim, stepResult) := step now rewardType gamma learningRate w h sim in
  let history := pushBounded 10 (rewardHistory pol) (reward stepResult) in
  if isDone stepResult then
    (sim, {| momentum := zero; rewardHistory := []; lastReward := Fin 0 |},
     stepResult)
  else
    (sim, {| momentum := mom; rewardHistory := history;
             lastReward := reward stepResult |}, stepResult).



(** The vector of a sampling offset. *)
Definition offset (sm : Sample) : Position := {| x := dx sm; y := dy sm |}.

(* ================================================================== *)
(** ** Measures used to state the properties *)
(* ================================================================== *)

Local Open Scope R_scope.


(** The rewards of the consecutive pairs of a trajectory. *)
Definition shapingRewards (goalPos : Position) (gamma baseReward : num)
  (traj : list Position) : list num :=
  map (fun pr => calculateDistanceShapingReward (fst pr) (snd pr) goalPos
                   gamma baseReward)
      (combine traj (tl traj)).

(** The Gaussian kernel at real distance [d], sigma = 100. *)
Definition gaussian (d : R) : R := Rtrigo_def.exp (- d ^ 2 / (2 * 100 ^ 2)).

(** Progress on reals: [max(0, (i - d) / i)]. *)
Definition progressR (i d : R) : R := Rmax 0 ((i - d) / i).





(* ================================================================== *)
(** ** Concrete engines *)
(* ================================================================== *)

(** The engine that [new SimulationEngine(canvasRef, 400, 300)] builds:
    agent at (100, 150), goal at (300, 150). *)
Definition engine400x300 : SimulationEngine :=
  {| width := Fin 400; height := Fin 300;
     agent := {| position := at_ 100 150; velocity := zero |};
     goal := {| position := at_ 300 150; velocity := zero |};
     agentVelocity := zero;
     positionHistory := [];
     maxHistoryLength := 10;
     successThreshold := Fin 35;
     previousDistance := None;
     initialDistance := None;
     successCount := 0 |}.


(** The engine of a 400 x 300 canvas with the agent 20 px from the goal. *)
Definition engine_at_280 : SimulationEngine :=
  setAgent {| position := at_ 280 150; velocity := zero |} engine400x300.

(** The engine of a 400 x 300 canvas with the agent exactly 35 px from the
    goal. *)
Definition engine_at_265 : SimulationEngine :=
  setAgent {| position := at_ 265 150; velocity := zero |} engine400x300.

(** The engine of a 400 x 300 canvas whose policy has commanded 4 px per
    tick toward the goal. *)
Definition engine_moving : SimulationEngine :=
  updateAgentVelocity (Fin 4) (Fin 0) engine400x300.

(* ================================================================== *)
(** ** The rest of simulation.js and of the animation loop *)
(* ================================================================== *)

(** [resetSuccessCount()]. *)
Definition resetSuccessCount (this : SimulationEngine) : SimulationEngine :=
  {| width := width this; height := height this;
     agent := agent this; goal := goal this;
     agentVelocity := agentVelocity this;
     positionHistory := positionHistory this;
     maxHistoryLength := maxHistoryLength this;
     successThreshold := successThreshold this;
     previousDistance := previousDistance this;
     initialDistance := initialDistance this;
     successCount := 0 |}.

(** The [for] loop of [animate]: [speedMultiplier] iterations, one per
    entry of [clock] (what [Date.now()] returns in each); the results of
    [sim.step] are collected in order. *)
Fixpoint animateFor `{Physics} (clock : list num) (rewardType : string)
  (gamma learningRate w h : num) (st : SimulationEngine * PolicyState)
  : SimulationEngine * PolicyState * list StepResult :=
  match clock with
  | [] => (st, [])
  | now :: clock' =>
      let '(st1, r) := animateIteration now rewardType gamma learningRate w h st in
      let '(st2, rs) := animateFor clock' rewardType gamma learningRate w h st1 in
      (st2, r :: rs)
  end.

(** What the component's [cumulativeSuccesses] gains in a loop:
    [prev + 1] for every result with [isDone]. *)
Definition doneCount (rs : list StepResult) : nat :=
  List.length (filter isDone rs).

(** The parts of an engine that no tick is meant to change: the goal, the
    canvas size, the threshold and the capacity of the history. *)
Definition same_setup (s s' : SimulationEngine) : Prop :=
  goal s' = goal s /\ width s' = width s /\ height s' = height s /\
  successThreshold s' = successThreshold s /\
  maxHistoryLength s' = maxHistoryLength s.

(** The clamped test position of the sampling loop, for one offset. *)
Definition testPosAt (w h : num) (agentPos : Position) (sample : Sample)
  : Position :=
  {| x := max (Fin 15) (min (w - Fin 15)%js (x agentPos + dx sample)%js);
     y := max (Fin 15) (min (h - Fin 15)%js (y agentPos + dy sample)%js) |}.

(** The expected reward of a sample under 'sparse', as a real: 1 when the
    clamped test position is within the threshold of the goal, else 0. *)
Definition sparseExpected (w h : num) (sim : SimulationEngine)
  (agentPos goalPos : Position) (sm : Sample) : R :=
  if (euclidean (testPosAt w h agentPos sm) goalPos <? successThreshold sim)%js
  then 1 else 0.

(* ================================================================== *)
(** ** rewards.js: generateRewardGradient *)
(* ================================================================== *)

(** [Math.floor(a)]. *)
Definition Math_floor (a : num) : num :=
  match a with
  | Fin r => Fin (IZR (Zfloor r))
  | _ => a
  end.

(** The conversion a [Uint8ClampedArray] applies to a stored number:
    [NaN] becomes 0, the value is clamped to 0..255 and rounded to the
    nearest integer, ties to even. *)
Definition toUint8Clamp (a : num) : Z :=
  match a with
  | NaN | NInf => 0%Z
  | PInf => 255%Z
  | Fin r =>
      match Rcmp r 0 with
      | Gt =>
          match Rcmp r 255 with
          | Lt =>
              let f := Zfloor r in
              match Rcmp (r - IZR f) 0.5 with
              | Lt => f
              | Gt => (f + 1)%Z
              | Eq => if Z.even f then f else (f + 1)%Z
              end
          | _ => 255%Z
          end
      | _ => 0%Z
      end
  end.

(** [data[i] = v] on a typed array: a write past the end is ignored. *)
Fixpoint setAt (i : nat) (v : Z) (data : list Z) : list Z :=
  match data, i with
  | [], _ => []
  | _ :: t, O => v :: t
  | a :: t, S i' => a :: setAt i' v t
  end.

(** The [params] object: each field may be missing. *)
Record GradientParams : Type := {
  p_threshold : option num;
  p_gamma : option num;
  p_learningRate : option num
}.

(** The [switch (rewardType)] of the pixel loop: the reward at pixel
    [(px, py)]. *)
Definition gradientReward (width height : nat) (goalPos : Position)
  (rewardType : string) (params : GradientParams) (px py : nat) : num :=
  let pos := {| x := Fin (INR px); y := Fin (INR py) |} in
  if (rewardType =? "sparse")%string then
    calculateSparseReward pos goalPos (or_else (p_threshold params) (Fin 30))
  else if (rewardType =? "shaping")%string then
    let reward :=
      calculateDistanceShapingReward pos pos goalPos
        (or_else (p_gamma params) (Fin 0.9)) (Fin 0) in
    ((reward + Fin 100) / Fin 200)%js
  else if (rewardType =? "prm")%string then
    let maxDist :=
      sqrt (Fin (INR width) * Fin (INR width)
            + Fin (INR height) * Fin (INR height))%js in
    calculatePRMReward pos goalPos (Some maxDist)
      (or_else (p_learningRate params) (Fin 0.1))
  else if (rewardType =? "semantic")%string then
    calculateSemanticReward pos goalPos (Fin (INR width)) (Fin (INR height))
  else Fin 0.

(** The four numbers assigned to a pixel: red, green, blue, alpha.  The
    products are exact here, so a floor can be one less than the floor of
    the product the program has rounded. *)
Definition pixelColor (reward : num) : list num :=
  let intensity := max (Fin 0) (min (Fin 1) reward) in
  if (intensity <? Fin 0.5)%js then
    [ Fin 0;
      Math_floor (intensity * Fin 2 * Fin 100)%js;
      Math_floor (Fin 100 + intensity * Fin 2 * Fin 155)%js;
      Fin 100 ]
  else
    [ Fin 0;
      Math_floor (Fin 100 + (intensity - Fin 0.5) * Fin 2 * Fin 155)%js;
      Math_floor (Fin 255 - (intensity - Fin 0.5) * Fin 2 * Fin 100)%js;
      Fin 100 ].

(** The four assignments [imageData.data[idx + k] = ...]. *)
Definition writePixel (idx : nat) (color : list num) (data : list Z)
  : list Z :=
  let data := setAt idx (toUint8Clamp (nth 0 color NaN)) data in
  let data := setAt (idx + 1) (toUint8Clamp (nth 1 color NaN)) data in
  let data := setAt (idx + 2) (toUint8Clamp (nth 2 color NaN)) data in
  setAt (idx + 3) (toUint8Clamp (nth 3 color NaN)) data.

(** [generateRewardGradient(width, height, goalPos, rewardType, params)]:
    the pixel data put on the canvas it returns.  [createImageData] gives
    [4 * width * height] zeros; the two loops run over the rows and, within
    a row, over the columns. *)
Definition generateRewardGradient (width height : nat) (goalPos : Position)
  (rewardType : string) (params : GradientParams) : list Z :=
  fold_left
    (fun data py =>
       fold_left
         (fun data px =>
            let reward :=
              gradientReward width height goalPos rewardType params px py in
            let idx := ((py * width + px) * 4)%nat in
            writePixel idx (pixelColor reward) data)
         (seq 0 width) data)
    (seq 0 height)
    (repeat 0%Z (4 * width * height)).

(* ================================================================== *)
(** ** simulation.js, first generation: the hop-based engine *)
(* ================================================================== *)

(** [Math.ceil(a)]. *)
Definition Math_ceil (a : num) : num :=
  match a with
  | Fin r => Fin (IZR (Zceil r))
  | _ => a
  end.

(** [a !== b] on numbers. *)
Definition neqb (a b : num) : bool := negb (a === b)%js.

(** [a || b] on numbers. *)
Definition num_or (a b : num) : num := or_else (Some a) b.

Module Gen1.

(** The fields of the first [SimulationEngine] that its simulation reads
    or writes. *)
Record Engine : Type := {
  width : num;
  height : num;
  agent : Body;
  goal : Body;
  agentVelocity : Position;
  positionHistory : list HistoryEntry;
  maxHistoryLength : nat;
  successThreshold : num;
  hopSize : num;
  currentHop : num;
  hopProgress : num
}.

(** [new SimulationEngine(canvasRef, width, height)]. *)
Definition constructor (width height : num) : Engine :=
  {| width := width;
     height := height;
     agent := {| position := {| x := (width / Fin 4)%js;
                                y := (height / Fin 2)%js |};
                 velocity := zero |};
     goal := {| position := {| x := (width * Fin 0.75)%js;
                               y := (height / Fin 2)%js |};
                velocity := zero |};
     agentVelocity := zero;
     positionHistory := [];
     maxHistoryLength := 10;
     successThreshold := Fin 30;
     hopSize := Fin 50;
     currentHop := Fin 0;
     hopProgress := Fin 0 |}.

Definition getAgentPosition (this : Engine) : Position :=
  {| x := x (position (agent this)); y := y (position (agent this)) |}.

Definition getGoalPosition (this : Engine) : Position :=
  {| x := x (position (goal this)); y := y (position (goal this)) |}.

Definition getDistance (this : Engine) : num :=
  let agentPos := getAgentPosition this in
  let goalPos := getGoalPosition this in
  euclidean agentPos goalPos.

(** [getInitialDistance()]: the distance of the first position in the
    history, or the current distance when the history is empty. *)
Definition getInitialDistance (this : Engine) : num :=
  match positionHistory this with
  | firstPos :: _ =>
      let goalPos := getGoalPosition this in
      euclidean (entry firstPos) goalPos
  | [] => getDistance this
  end.

Definition setAgent (b : Body) (this : Engine) : Engine :=
  {| width := width this; height := height this;
     agent := b; goal := goal this;
     agentVelocity := agentVelocity this;
     positionHistory := positionHistory this;
     maxHistoryLength := maxHistoryLength this;
     successThreshold := successThreshold this;
     hopSize := hopSize this;
     currentHop := currentHop this;
     hopProgress := hopProgress this |}.

Definition setPositionHistory (l : list HistoryEntry) (this : Engine)
  : Engine :=
  {| width := width this; height := height this;
     agent := agent this; goal := goal this;
     agentVelocity := agentVelocity this;
     positionHistory := l;
     maxHistoryLength := maxHistoryLength this;
     successThreshold := successThreshold this;
     hopSize := hopSize this;
     currentHop := currentHop this;
     hopProgress := hopProgress this |}.

Definition setHop (hop progress : num) (this : Engine) : Engine :=
  {| width := width this; height := height this;
     agent := agent this; goal := goal this;
     agentVelocity := agentVelocity this;
     positionHistory := positionHistory this;
     maxHistoryLength := maxHistoryLength this;
     successThreshold := successThreshold this;
     hopSize := hopSize this;
     currentHop := hop;
     hopProgress := progress |}.

(** [updateAgentVelocity(vx, vy)]: stored and handed to the body. *)
Definition updateAgentVelocity (vx vy : num) (this : Engine) : Engine :=
  {| width := width this; height := height this;
     agent := Body_setVelocity (agent this) {| x := vx; y := vy |};
     goal := goal this;
     agentVelocity := {| x := vx; y := vy |};
     positionHistory := positionHistory this;
     maxHistoryLength := maxHistoryLength this;
     successThreshold := successThreshold this;
     hopSize := hopSize this;
     currentHop := currentHop this;
     hopProgress := hopProgress this |}.

(** [updatePRMProgress()]. *)
Definition updatePRMProgress (this : Engine) : Engine :=
  let distance := getDistance this in
  let expectedHops := Math_ceil (distance / hopSize this)%js in
  let currentHop :=
    Math_floor ((getInitialDistance this - distance) / hopSize this)%js in
  let this := setHop currentHop (hopProgress this) this in
  let hopStartDistance :=
    (getInitialDistance this - (currentHop * hopSize this))%js in
  let hopEndDistance := max (Fin 0) (hopStartDistance - hopSize this)%js in
  let hopProgress :=
    ((hopStartDistance - distance)
     / num_or (hopStartDistance - hopEndDistance)%js (Fin 1))%js in
  setHop currentHop (max (Fin 0) (min (Fin 1) hopProgress)) this.

(** [step()]; [now] is what [Date.now()] returns. *)
Definition step `{Physics} (now : num) (this : Engine) : Engine :=
  let this :=
    if neqb (x (agentVelocity this)) (Fin 0)
       || neqb (y (agentVelocity this)) (Fin 0)
    then setAgent (Body_setVelocity (agent this) (agentVelocity this)) this
    else this in
  let currentPos := getAgentPosition this in
  let this :=
    setPositionHistory
      (pushBounded (maxHistoryLength this) (positionHistory this)
         {| entry := currentPos; time := now |}) this in
  let this := updatePRMProgress this in
  setAgent (Engine_update (Fin 1000 / Fin 60)%js (agent this)) this.

Definition isSuccess (this : Engine) : bool :=
  (getDistance this <? successThreshold this)%js.

(** [reset()]. *)
Definition reset (this : Engine) : Engine :=
  let agent1 :=
    Body_setPosition (agent this)
      {| x := (width this / Fin 4)%js; y := (height this / Fin 2)%js |} in
  let agent2 := Body_setVelocity agent1 zero in
  {| width := width this; height := height this;
     agent := agent2; goal := goal this;
     agentVelocity := zero;
     positionHistory := [];
     maxHistoryLength := maxHistoryLength this;
     successThreshold := successThreshold this;
     hopSize := hopSize this;
     currentHop := Fin 0;
     hopProgress := Fin 0 |}.

End Gen1.

(** The first-generation engine of a 400 x 300 canvas after the agent has
    moved from the spawn point (100, 150) to (170, 150): the history still
    starts at the spawn point. *)
Definition gen1_engine : Gen1.Engine :=
  {| Gen1.width := Fin 400; Gen1.height := Fin 300;
     Gen1.agent := {| position := at_ 170 150; velocity := zero |};
     Gen1.goal := {| position := at_ 300 150; velocity := zero |};
     Gen1.agentVelocity := zero;
     Gen1.positionHistory := [ {| entry := at_ 100 150; time := Fin 0 |} ];
     Gen1.maxHistoryLength := 10;
     Gen1.successThreshold := Fin 30;
     Gen1.hopSize := Fin 50;
     Gen1.currentHop := Fin 0;
     Gen1.hopProgress := Fin 0 |}.

(* ================================================================== *)
(** ** App.jsx: the success callback and the chart data *)
(* ================================================================== *)

(** An object with numeric values, such as [{ sparse: 0, shaping: 0, prm: 0,
    semantic: 0 }]: a key is missing or holds a number. *)
Definition Counts : Type := string -> option num.

(** [{ sparse: 0, shaping: 0, prm: 0, semantic: 0 }]. *)
Definition zeroCounts : Counts :=
  fun key =>
    if (key =? "sparse")%string || (key =? "shaping")%string
       || (key =? "prm")%string || (key =? "semantic")%string
    then Some (Fin 0) else None.

(** [{ ...o, [key]: value }]. *)
Definition withKey (o : Counts) (key : string) (value : num) : Counts :=
  fun key' => if (key' =? key)%string then Some value else o key'.

(** [array.slice(-n)]: the last [n] elements. *)
Definition sliceLast (A : Type) (n : nat) (l : list A) : list A :=
  skipn (List.length l - n) l.

(** [handleSuccess(rewardType, count)] on the two pieces of state it
    updates, [successes] and [chartData]. *)
Definition handleSuccess (rewardType : string) (count : num)
  (st : Counts * list Counts) : Counts * list Counts :=
  let '(prev, prevData) := st in
  let newSuccesses := withKey prev rewardType count in
  let lastEntry := last prevData zeroCounts in
  let newEntry := withKey lastEntry rewardType count in
  let newData := prevData ++ [newEntry] in
  (newSuccesses,
   if (100 <? List.length newData)%nat then sliceLast 100 newData else newData).

(* ================================================================== *)
(** ** Measures of the gradient overlay *)
(* ================================================================== *)

(** The clamped intensity of a finite reward. *)
Definition intensityR (r : R) : R := Rmax 0 (Rmin 1 r).

(** The green byte of a pixel, as a function of the clamped intensity. *)
Definition greenByte (i : R) : Z :=
  if Rlt_dec i 0.5 then Zfloor (i * 2 * 100)
  else Zfloor (100 + (i - 0.5) * 2 * 155).

Definition blueByte (i : R) : Z :=
  if Rlt_dec i 0.5 then Zfloor (100 + i * 2 * 155)
  else Zfloor (255 - (i - 0.5) * 2 * 100).

(** A sequence of pixel writes. *)
Definition applyWrites (ws : list (nat * list num)) (data : list Z) : list Z :=
  fold_left (fun d wr => writePixel (fst wr) (snd wr) d) ws data.

(** The writes of the two loops, in the order the loops make them. *)
Definition pixelWrites (width height : nat) (goalPos : Position)
  (rewardType : string) (params : GradientParams) : list (nat * list num) :=
  flat_map
    (fun py =>
       map (fun px =>
              (((py * width + px) * 4)%nat,
               pixelColor
                 (gradientReward width height goalPos rewardType params px py)))
           (seq 0 width))
    (seq 0 height).

(** A [params] object with no field set. *)
Definition noParams : GradientParams :=
  {| p_threshold := None; p_gamma := None; p_learningRate := None |}.

(* ================================================================== *)
(** ** Differences of distances along a trajectory *)
(* ================================================================== *)





(* ================================================================== *)
(** ** The same program in binary64 *)
(* ================================================================== *)

(** The reward functions of rewards.js, [getReward] of simulation.js and
    [updateAgent] of SimulationCanvas.jsx once more, on doubles: every
    operation below is the IEEE-754 binary64 operation, rounded to
    nearest, ties to even, as JavaScript performs it. *)
Module F64.

Import ZArith FloatClass PrimFloat SpecFloat FloatOps.
Local Open Scope float_scope.
#[local] Set Warnings "-inexact-float".

(** [Math.pow(v, 2)]: the square, rounded.  ECMAScript leaves the accuracy
    of [Math.pow] to the implementation; the results evaluated below rest
    on squares that are exactly representable, that overflow or that
    underflow (the squares of the policy's test positions are not, but they
    only feed a comparison with the threshold that is far from deciding
    otherwise). *)
Definition Math_pow2 (v : float) : float := v * v.

(** [Math.max(a, b)] and [Math.min(a, b)]: [NaN] when either is, and [+0]
    above [-0]. *)
Definition Math_max (a b : float) : float :=
  if is_nan a || is_nan b then nan
  else if a <? b then b
  else if b <? a then a
  else if get_sign a then b else a.

Definition Math_min (a b : float) : float :=
  if is_nan a || is_nan b then nan
  else if a <? b then a
  else if b <? a then b
  else if get_sign a then a else b.

(** Truthiness of a nullable number, and [a || b]. *)
Definition truthy (a : option float) : bool :=
  match a with
  | None => false
  | Some v => negb (is_nan v || (v =? 0))
  end.

Definition or_else (a : option float) (b : float) : float :=
  match a with
  | Some v => if truthy a then v else b
  | None => b
  end.

(** The exact value of a finite double, as the integer [v * 2^1074]
    (every finite double is a multiple of [2^-1074]); 0 for an infinity
    or [NaN]. *)
Definition scaled (v : float) : Z :=
  match Prim2SF v with
  | S754_finite s m e =>
      let n := (Z.pos m * 2 ^ (e + 1074))%Z in
      if s then (- n)%Z else n
  | _ => 0%Z
  end.

Record Position : Type := { x : float; y : float }.

Definition at_ (a b : float) : Position := {| x := a; y := b |}.

(** The exact squared length of a vector, in units of [2^-2148]. *)
Definition normSq (v : Position) : Z :=
  (scaled (x v) * scaled (x v) + scaled (y v) * scaled (y v))%Z.

(** [Math.sqrt(Math.pow(p.x - q.x, 2) + Math.pow(p.y - q.y, 2))]. *)
Definition euclidean (p q : Position) : float :=
  sqrt (Math_pow2 (x p - x q) + Math_pow2 (y p - y q)).

(** *** rewards.js *)

Definition calculateSparseReward (agentPos goalPos : Position)
  (threshold : float) : float :=
  let distance := euclidean agentPos goalPos in
  if distance <? threshold then 1 else 0.

Definition calculateDistanceShapingReward
  (currentPos nextPos goalPos : Position) (gamma baseReward : float) : float :=
  let phiCurrent := - euclidean currentPos goalPos in
  let phiNext := - euclidean nextPos goalPos in
  let shapingSignal := (gamma * phiNext) - phiCurrent in
  baseReward + shapingSignal.

Definition calculatePRMReward (currentPos goalPos : Position)
  (initialDistance : option float) (learningRate : float) : float :=
  let distance := euclidean currentPos goalPos in
  match initialDistance with
  | None => 0
  | Some initialDistance =>
      if initialDistance =? 0 then 0
      else
        let progress :=
          Math_max 0 ((initialDistance - distance) / initialDistance) in
        learningRate * progress
  end.

(** The rewards of the consecutive pairs of a trajectory, and their sum
    accumulated from 0 in trajectory order. *)
Definition shapingRewards (goalPos : Position) (gamma baseReward : float)
  (traj : list Position) : list float :=
  map (fun pr => calculateDistanceShapingReward (fst pr) (snd pr) goalPos
                   gamma baseReward)
      (combine traj (tl traj)).


(** *** simulation.js *)

(** The fields of the engine that [getReward] and the policy read or
    write; [agent] and [goal] are the positions of the two bodies. *)
Record SimulationEngine : Type := {
  agent : Position;
  goal : Position;
  agentVelocity : Position;
  successThreshold : float;
  previousDistance : option float;
  initialDistance : option float
}.

Definition zero : Position := {| x := 0; y := 0 |}.

Definition constructor (width height : float) : SimulationEngine :=
  {| agent := {| x := width / 4; y := height / 2 |};
     goal := {| x := width * 0.75; y := height / 2 |};
     agentVelocity := zero;
     successThreshold := 35;
     previousDistance := None;
     initialDistance := None |}.

Definition getDistance (this : SimulationEngine) : float :=
  euclidean (agent this) (goal this).

Definition updateAgentVelocity (vx vy : float) (this : SimulationEngine)
  : SimulationEngine :=
  {| agent := agent this; goal := goal this;
     agentVelocity := {| x := vx; y := vy |};
     successThreshold := successThreshold this;
     previousDistance := previousDistance this;
     initialDistance := initialDistance this |}.

Definition setDistances (prev init : option float) (this : SimulationEngine)
  : SimulationEngine :=
  {| agent := agent this; goal := goal this;
     agentVelocity := agentVelocity this;
     successThreshold := successThreshold this;
     previousDistance := prev;
     initialDistance := init |}.

(** The engine [this] with the agent's body at [p]. *)
Definition setAgent (p : Position) (this : SimulationEngine)
  : SimulationEngine :=
  {| agent := p; goal := goal this;
     agentVelocity := agentVelocity this;
     successThreshold := successThreshold this;
     previousDistance := previousDistance this;
     initialDistance := initialDistance this |}.

(** *** SimulationCanvas.jsx: the parts of the policy without a reward *)

Record Sample : Type := { dx : float; dy : float }.

Definition sampleDistance : float := 10.

Definition samples : list Sample :=
  [ {| dx := sampleDistance; dy := 0 |};
    {| dx := - sampleDistance; dy := 0 |};
    {| dx := 0; dy := sampleDistance |};
    {| dx := 0; dy := - sampleDistance |};
    {| dx := sampleDistance * 0.707; dy := sampleDistance * 0.707 |};
    {| dx := - sampleDistance * 0.707; dy := sampleDistance * 0.707 |};
    {| dx := sampleDistance * 0.707; dy := - sampleDistance * 0.707 |};
    {| dx := - sampleDistance * 0.707; dy := - sampleDistance * 0.707 |} ].

Definition normalizeDirection (agentPos goalPos bestDirection : Position)
  : Position :=
  let dirLength :=
    sqrt (x bestDirection * x bestDirection
          + y bestDirection * y bestDirection) in
  if 0 <? dirLength then
    {| x := x bestDirection / dirLength; y := y bestDirection / dirLength |}
  else
    let dx := x goalPos - x agentPos in
    let dy := y goalPos - y agentPos in
    let dist := sqrt (dx * dx + dy * dy) in
    if 0 <? dist then {| x := dx / dist; y := dy / dist |}
    else bestDirection.

Definition blendMomentum (momentum bestDirection : Position) : Position :=
  let momentumDecay := 0.7 in
  let m :=
    {| x := x momentum * momentumDecay
            + x bestDirection * (1 - momentumDecay);
       y := y momentum * momentumDecay
            + y bestDirection * (1 - momentumDecay) |} in
  let momLength := sqrt (x m * x m + y m * y m) in
  if 0 <? momLength then {| x := x m / momLength; y := y m / momLength |}
  else m.

Definition blendFinal (bestDirection momentum : Position) : Position :=
  let momentumWeight := 0.3 in
  let finalDirection :=
    {| x := x bestDirection * (1 - momentumWeight)
            + x momentum * momentumWeight;
       y := y bestDirection * (1 - momentumWeight)
            + y momentum * momentumWeight |} in
  let finalLength :=
    sqrt (x finalDirection * x finalDirection
          + y finalDirection * y finalDirection) in
  if 0 <? finalLength then
    {| x := x finalDirection / finalLength;
       y := y finalDirection / finalLength |}
  else finalDirection.

Definition baseSpeed (distance : float) : float :=
  Math_min 4 (Math_max 1.5 (distance * 0.015)).

(** *** What depends on [Math.exp] *)

Section Libm.

(** [Math.exp] away from its special values is left to the implementation
    by ECMAScript: [approx_exp] is that part, whatever it is. *)
Variable approx_exp : float -> float.

(** [Math.exp(v)]: [NaN] for [NaN], 1 for [+0] and [-0], [+Infinity] for
    [+Infinity], [+0] for [-Infinity], as ECMAScript prescribes. *)
Definition Math_exp (v : float) : float :=
  match classify v with
  | NaN => nan
  | PInf => infinity
  | NInf => 0
  | PZero | NZero => 1
  | _ => approx_exp v
  end.

Definition calculateSemanticReward (agentPos goalPos : Position)
  (width height : float) : float :=
  let distance := euclidean agentPos goalPos in
  let sigma := 100 in
  Math_exp (- Math_pow2 distance / (2 * Math_pow2 sigma)).

Definition getReward (type : string) (gamma learningRate width height : float)
  (this : SimulationEngine) : SimulationEngine * float :=
  let dist := getDistance this in
  let prevDist :=
    match previousDistance this with Some d => d | None => dist end in
  let initialDistance' :=
    match initialDistance this with Some d => Some d | None => Some dist end in
  let this' := setDistances (Some dist) initialDistance' this in
  let r :=
    if String.eqb type "sparse" then
      if dist <? successThreshold this' then 1 else 0
    else if String.eqb type "shaping" then
      let phiNext := - dist in
      let phiCurr := - prevDist in
      (gamma * phiNext) - phiCurr
    else if String.eqb type "prm" then
      let initialDist :=
        match initialDistance' with Some d => d | None => nan end in
      let progress := Math_max 0 ((initialDist - dist) / initialDist) in
      learningRate * progress
    else if String.eqb type "semantic" then
      let sigma := 100 in
      Math_exp (- Math_pow2 dist / (2 * Math_pow2 sigma))
    else 0 in
  (this', r).

Definition expectedRewardAt (rewardType : string)
  (gamma learningRate w h : float) (sim : SimulationEngine)
  (goalPos : Position) (distance : float) (testPos : Position) : float :=
  let testDistance := euclidean testPos goalPos in
  if String.eqb rewardType "sparse" then
    calculateSparseReward testPos goalPos (successThreshold sim)
  else if String.eqb rewardType "shaping" then
    let phiCurrent := - distance in
    let phiNext := - testDistance in
    (gamma * phiNext) - phiCurrent
  else if String.eqb rewardType "prm" then
    let initialDist := or_else (initialDistance sim) distance in
    calculatePRMReward testPos goalPos (Some initialDist) learningRate
  else if String.eqb rewardType "semantic" then
    calculateSemanticReward testPos goalPos w h
  else 0.

Definition trySample (rewardType : string) (gamma learningRate w h : float)
  (sim : SimulationEngine) (agentPos goalPos : Position) (distance : float)
  (best : Position * float) (sample : Sample) : Position * float :=
  let testPos :=
    {| x := x agentPos + dx sample; y := y agentPos + dy sample |} in
  let testPos :=
    {| x := Math_max 15 (Math_min (w - 15) (x testPos));
       y := Math_max 15 (Math_min (h - 15) (y testPos)) |} in
  let expectedReward :=
    expectedRewardAt rewardType gamma learningRate w h sim goalPos distance
      testPos in
  if snd best <? expectedReward
  then ({| x := dx sample; y := dy sample |}, expectedReward)
  else best.

Definition updateAgent (rewardType : string) (gamma learningRate w h : float)
  (currentReward : float) (st : SimulationEngine * Position)
  : SimulationEngine * Position :=
  let '(sim, momentum) := st in
  let agentPos := agent sim in
  let goalPos := goal sim in
  let distance := getDistance sim in
  if distance <=? successThreshold sim then
    (updateAgentVelocity 0 0 sim, zero)
  else
    let best :=
      fold_left
        (trySample rewardType gamma learningRate w h sim agentPos goalPos
           distance)
        samples (zero, currentReward) in
    let bestDirection := normalizeDirection agentPos goalPos (fst best) in
    let momentum := blendMomentum momentum bestDirection in
    let finalDirection := blendFinal bestDirection momentum in
    let baseSpeed := baseSpeed distance in
    let vx := x finalDirection * baseSpeed in
    let vy := y finalDirection * baseSpeed in
    (updateAgentVelocity vx vy sim, momentum).

End Libm.

(** *** Concrete inputs *)





End F64.

(* ================================================================== *)
(** ** Numbers: evaluation on finite values *)
(* ================================================================== *)

Unset Implicit Arguments.

Lemma Rcmp_spec (a b : R) : CompareSpec (a = b) (a < b) (b < a) (Rcmp a b).
Proof.
  unfold Rcmp. destruct (total_order_T a b) as [[Hlt | Heq] | Hgt];
    constructor; assumption.
Qed.

Lemma Rcmp_Lt (a b : R) : a < b -> Rcmp a b = Lt.
Proof. intro H. destruct (Rcmp_spec a b); [lra | reflexivity | lra]. Qed.

Lemma Rcmp_Eq (a b : R) : a = b -> Rcmp a b = Eq.
Proof. intro H. destruct (Rcmp_spec a b); [reflexivity | lra | lra]. Qed.

Lemma Rcmp_Gt (a b : R) : b < a -> Rcmp a b = Gt.
Proof. intro H. destruct (Rcmp_spec a b); [lra | lra | reflexivity]. Qed.

(** Decide every three-way comparison of the goal that linear arithmetic
    over the context settles. *)
Ltac rcmp :=
  repeat match goal with
    | |- context [Rcmp ?a ?b] =>
        first [ rewrite (@Rcmp_Lt a b) by lra
              | rewrite (@Rcmp_Gt a b) by lra
              | rewrite (@Rcmp_Eq a b) by lra ]
    end.

Lemma ltb_Fin (a b : R) : ltb (Fin a) (Fin b) = true <-> a < b.
Proof.
  cbn. destruct (Rcmp_spec a b); split; intro; try reflexivity;
    try discriminate; lra.
Qed.

Lemma ltb_Fin_true (a b : R) : a < b -> ltb (Fin a) (Fin b) = true.
Proof. apply ltb_Fin. Qed.

Lemma ltb_Fin_false (a b : R) : b <= a -> ltb (Fin a) (Fin b) = false.
Proof.
  intro H. destruct (ltb (Fin a) (Fin b)) eqn:E; [| reflexivity].
  apply ltb_Fin in E. lra.
Qed.

Lemma eqb_Fin (a b : R) : eqb (Fin a) (Fin b) = true <-> a = b.
Proof.
  cbn. destruct (Rcmp_spec a b); split; intro; try reflexivity;
    try discriminate; lra.
Qed.

Lemma eqb_Fin_false (a b : R) : a <> b -> eqb (Fin a) (Fin b) = false.
Proof.
  intro H. destruct (eqb (Fin a) (Fin b)) eqn:E; [| reflexivity].
  apply eqb_Fin in E. contradiction.
Qed.

Lemma leb_Fin (a b : R) : leb (Fin a) (Fin b) = true <-> a <= b.
Proof.
  unfold leb. rewrite orb_true_iff, ltb_Fin, eqb_Fin. lra.
Qed.


Lemma sqrt_Fin (r : R) : 0 <= r -> sqrt (Fin r) = Fin (R_sqrt.sqrt r).
Proof.
  intro H. cbn. destruct (Rcmp_spec r 0); try reflexivity. lra.
Qed.

Lemma div_Fin (a b : R) : b <> 0 -> (Fin a / Fin b)%js = Fin (a / b).
Proof.
  intro H. cbn. destruct (Rcmp_spec b 0); try reflexivity. contradiction.
Qed.

Lemma max_Fin (a b : R) : max (Fin a) (Fin b) = Fin (Rmax a b).
Proof.
  unfold max. destruct (ltb (Fin a) (Fin b)) eqn:E.
  - apply ltb_Fin in E. rewrite Rmax_right by lra. reflexivity.
  - destruct (Rle_dec b a) as [Hle | Hgt].
    + rewrite Rmax_left by lra. reflexivity.
    + rewrite ltb_Fin_true in E by lra. discriminate.
Qed.

Lemma min_Fin (a b : R) : min (Fin a) (Fin b) = Fin (Rmin a b).
Proof.
  unfold min. destruct (ltb (Fin b) (Fin a)) eqn:E.
  - apply ltb_Fin in E. rewrite Rmin_right by lra. reflexivity.
  - destruct (Rle_dec a b) as [Hle | Hgt].
    + rewrite Rmin_left by lra. reflexivity.
    + rewrite ltb_Fin_true in E by lra. discriminate.
Qed.

(** ** The Euclidean distance on finite positions *)

Lemma sum_squares_nonneg (a b : R) : 0 <= a ^ 2 + b ^ 2.
Proof. apply Rplus_le_le_0_compat; apply pow2_ge_0. Qed.

Lemma pow2_eq_0 (a : R) : a ^ 2 = 0 -> a = 0.
Proof. rewrite <- Rsqr_pow2. apply Rsqr_0_uniq. Qed.

Lemma distR_nonneg (ax ay gx gy : R) : 0 <= distR ax ay gx gy.
Proof. apply sqrt_pos. Qed.

Lemma euclidean_at (ax ay gx gy : R) :
  euclidean (at_ ax ay) (at_ gx gy) = Fin (distR ax ay gx gy).
Proof.
  unfold euclidean, at_, distR. cbn [x y sub neg add pow].
  apply sqrt_Fin, sum_squares_nonneg.
Qed.

Lemma distR_zero_iff (ax ay gx gy : R) :
  distR ax ay gx gy = 0 <-> ax = gx /\ ay = gy.
Proof.
  unfold distR. split.
  - intro H. apply sqrt_eq_0 in H; [| apply sum_squares_nonneg].
    pose proof (pow2_ge_0 (ax - gx)) as Hx.
    pose proof (pow2_ge_0 (ay - gy)) as Hy.
    assert (Hx0 : (ax - gx) ^ 2 = 0) by lra.
    assert (Hy0 : (ay - gy) ^ 2 = 0) by lra.
    apply pow2_eq_0 in Hx0. apply pow2_eq_0 in Hy0. lra.
  - intros [-> ->]. replace ((gx - gx) ^ 2 + (gy - gy) ^ 2) with 0 by ring.
    apply sqrt_0.
Qed.

Lemma distR_horizontal (ax gx c : R) : ax <= gx -> distR ax c gx c = gx - ax.
Proof.
  intro H. unfold distR.
  replace ((ax - gx) ^ 2 + (c - c) ^ 2) with ((gx - ax) * (gx - ax)) by ring.
  apply sqrt_square. lra.
Qed.

Lemma getDistance_at (s : SimulationEngine) (ax ay gx gy : R) :
  position (agent s) = at_ ax ay ->
  position (goal s) = at_ gx gy ->
  getDistance s = Fin (distR ax ay gx gy).
Proof.
  intros Ha Hg. unfold getDistance, getAgentPosition, getGoalPosition.
  rewrite Ha, Hg. apply euclidean_at.
Qed.

Lemma constructor_400_300 : constructor (Fin 400) (Fin 300) = engine400x300.
Proof.
  unfold constructor, engine400x300, at_.
  rewrite !div_Fin by lra. cbn [mul].
  replace (400 / 4) with 100 by lra. replace (300 / 2) with 150 by lra.
  replace (400 * 0.75) with 300 by lra. reflexivity.
Qed.

(* ================================================================== *)
(** ** Sparse reward *)
(* ================================================================== *)



(* ================================================================== *)
(** ** Potential-based shaping *)
(* ================================================================== *)






Section ShapingInDoubles.

Import PrimFloat.
#[local] Set Warnings "-inexact-float".


End ShapingInDoubles.



Section FirstRewardInDoubles.

Import PrimFloat.
#[local] Set Warnings "-inexact-float".


End FirstRewardInDoubles.

(* ================================================================== *)
(** ** Semantic reward *)
(* ================================================================== *)

Lemma semantic_at (ax ay gx gy : R) (w h : num) :
  calculateSemanticReward (at_ ax ay) (at_ gx gy) w h
  = Fin (gaussian (distR ax ay gx gy)).
Proof.
  unfold calculateSemanticReward. rewrite euclidean_at.
  cbn [pow neg mul]. rewrite div_Fin by lra. reflexivity.
Qed.

Lemma gaussian_range (d : R) : 0 < gaussian d <= 1.
Proof.
  unfold gaussian. split; [apply exp_pos |].
  rewrite <- exp_0.
  assert (H : - d ^ 2 / (2 * 100 ^ 2) <= 0).
  { pose proof (pow2_ge_0 d) as Hq.
    assert (Hk : 0 < / (2 * 100 ^ 2)) by (apply Rinv_0_lt_compat; lra).
    unfold Rdiv. set (q := d ^ 2) in *. set (k := / (2 * 100 ^ 2)) in *.
    nra. }
  destruct H as [H | H]; [left; apply exp_increasing; exact H |].
  right. rewrite H. reflexivity.
Qed.

Lemma gaussian_decreasing (d d' : R) :
  0 <= d -> d < d' -> gaussian d' < gaussian d.
Proof.
  intros H0 Hlt. unfold gaussian. apply exp_increasing.
  assert (Hsq : d ^ 2 < d' ^ 2) by nra.
  apply Rmult_lt_compat_r; [apply Rinv_0_lt_compat; lra | lra].
Qed.

Lemma gaussian_one_iff (d : R) : 0 <= d -> (gaussian d = 1 <-> d = 0).
Proof.
  intro H0. split.
  - intro H1. destruct (Req_dec d 0) as [Hz | Hnz]; [assumption |].
    assert (Hlt : gaussian d < gaussian 0)
      by (apply gaussian_decreasing; lra).
    assert (Hg0 : gaussian 0 = 1).
    { unfold gaussian. replace (- 0 ^ 2 / (2 * 100 ^ 2)) with 0 by lra.
      apply exp_0. }
    lra.
  - intros ->. unfold gaussian.
    replace (- 0 ^ 2 / (2 * 100 ^ 2)) with 0 by lra. apply exp_0.
Qed.

(** C7. For finite agent and goal positions the semantic reward, both of
    [calculateSemanticReward] and of the engine's [getReward('semantic')],
    is [Math.exp(-Math.pow(distance, 2) / (2 * Math.pow(100, 2)))] with
    sigma fixed at 100, whatever the canvas size; it lies in [0, 1], it is 1
    when agent and goal coincide, it is not larger at a larger computed
    distance, and at distance 100 it is [Math.exp(-0.5)].  In doubles it
    reaches 0, it is 1 at some positions off the goal, and it is not
    strictly decreasing, as the evaluation in binary64 that follows
    shows. *)
Theorem semantic_reward_gaussian :
  forall (s : SimulationEngine) (ax ay gx gy ax' ay' : R)
         (gamma lr w h : num),
    position (agent s) = at_ ax ay ->
    position (goal s) = at_ gx gy ->
    let dist := euclidean (at_ ax ay) (at_ gx gy) in
    let dist' := euclidean (at_ ax' ay') (at_ gx gy) in
    let r := calculateSemanticReward (at_ ax ay) (at_ gx gy) w h in
    let r' := calculateSemanticReward (at_ ax' ay') (at_ gx gy) w h in
    r = exp (- pow dist 2 / (Fin 2 * pow (Fin 100) 2))%js /\
    snd (getReward "semantic" gamma lr w h s) = r /\
    (exists v v' : R,
        r = Fin v /\ r' = Fin v' /\
        0 <= v <= 1 /\
        ((dist <=? dist')%js = true -> v' <= v)) /\
    (ax = gx /\ ay = gy -> r = Fin 1) /\
    (dist = Fin 100 -> r = exp (- Fin 0.5)%js).
Proof.
  intros s ax ay gx gy ax' ay' gamma lr w h Ha Hg dist dist' r r'.
  pose proof (distR_nonneg ax ay gx gy) as Hd.
  assert (Hdist : dist = Fin (distR ax ay gx gy)) by apply euclidean_at.
  assert (Hdist' : dist' = Fin (distR ax' ay' gx gy)) by apply euclidean_at.
  assert (Hr : r = Fin (gaussian (distR ax ay gx gy))) by apply semantic_at.
  assert (Hr' : r' = Fin (gaussian (distR ax' ay' gx gy))) by apply semantic_at.
  refine (conj _ (conj _ (conj _ (conj _ _)))).
  - reflexivity.
  - rewrite Hr. unfold getReward. cbn [snd String.eqb Ascii.eqb Bool.eqb].
    rewrite (getDistance_at s _ _ _ _ Ha Hg). cbn [pow neg mul].
    rewrite div_Fin by lra. reflexivity.
  - exists (gaussian (distR ax ay gx gy)), (gaussian (distR ax' ay' gx gy)).
    refine (conj Hr (conj Hr' (conj _ _))).
    + pose proof (gaussian_range (distR ax ay gx gy)). lra.
    + rewrite Hdist, Hdist'. intro Hle. apply leb_Fin in Hle.
      destruct Hle as [Hlt | Heq].
      * left. apply (gaussian_decreasing _ _ Hd Hlt).
      * rewrite Heq. right. reflexivity.
  - intros [Hx Hy]. rewrite Hr. f_equal.
    apply (gaussian_one_iff _ Hd). apply distR_zero_iff. split; assumption.
  - rewrite Hdist, Hr. intro H100. injection H100 as H100. rewrite H100.
    cbn [neg exp]. f_equal. unfold gaussian. f_equal. lra.
Qed.

Lemma semantic_reward_gaussian_witness :
  snd (getReward "semantic" (Fin 0.9) (Fin 0.1) (Fin 400) (Fin 300)
         engine400x300)
  = calculateSemanticReward (at_ 100 150) (at_ 300 150) (Fin 400) (Fin 300).
Proof.
  apply (@semantic_reward_gaussian engine400x300 100 150 300 150 104 150
           (Fin 0.9) (Fin 0.1) (Fin 400) (Fin 300) eq_refl eq_refl).
Defined.

Section SemanticInDoubles.

Import PrimFloat.
#[local] Set Warnings "-inexact-float".

(** C7, counterexample.  In binary64, for every implementation of
    [Math.exp] and every canvas size, with the goal at the origin: an agent
    at (1e200, 0) gets the reward 0 (the squared distance overflows),
    outside (0, 1]; an agent at (1e-200, 0), which is not on the goal, gets
    the reward 1 (the squared distance underflows); and the agents at
    (1e8, 0) and (1e8, 1), whose exact distances differ, get the same
    reward (1e16 + 1 rounds to 1e16). *)
Lemma semantic_reward_saturates :
  (forall (approx_exp : float -> float) (w h : float),
      F64.calculateSemanticReward approx_exp (F64.at_ 1e200 0) (F64.at_ 0 0)
        w h = 0%float) /\
  (forall (approx_exp : float -> float) (w h : float),
      F64.calculateSemanticReward approx_exp (F64.at_ 1e-200 0) (F64.at_ 0 0)
        w h = 1%float) /\
  (0 < F64.normSq (F64.at_ 1e-200 0))%Z /\
  (forall (approx_exp : float -> float) (w h : float),
      F64.calculateSemanticReward approx_exp (F64.at_ 1e8 1) (F64.at_ 0 0) w h
      = F64.calculateSemanticReward approx_exp (F64.at_ 1e8 0) (F64.at_ 0 0)
          w h) /\
  (F64.normSq (F64.at_ 1e8 0) < F64.normSq (F64.at_ 1e8 1))%Z.
Proof. repeat apply conj; intros; vm_compute; reflexivity. Qed.

End SemanticInDoubles.

(* ================================================================== *)
(** ** The step loop and the success transition *)
(* ================================================================== *)

Lemma isSuccess_getReward (type : string) (gamma lr w h : num)
  (s : SimulationEngine) :
  isSuccess (fst (getReward type gamma lr w h s)) = isSuccess s.
Proof. reflexivity. Qed.

(** The two paths of [step]. *)
Lemma step_success `{Physics} (now : num) (type : string)
  (gamma lr w h : num) (s : SimulationEngine) :
  isSuccess s = true ->
  step now type gamma lr w h s
  = (reset (incrSuccessCount (fst (getReward type gamma lr w h s))),
     {| reward := Fin 1; isDone := true |}).
Proof.
  intro Hs. unfold step.
  rewrite (surjective_pairing (getReward type gamma lr w h s)).
  rewrite isSuccess_getReward, Hs. reflexivity.
Qed.

Lemma step_continue `{Physics} (now : num) (type : string)
  (gamma lr w h : num) (s : SimulationEngine) :
  isSuccess s = false ->
  step now type gamma lr w h s
  = (let s1 := fst (getReward type gamma lr w h s) in
     let s2 := setAgent (Body_setVelocity (agent s1) (agentVelocity s1)) s1 in
     let s3 := setAgent (Engine_update (Fin 1000 / Fin 60)%js (agent s2)) s2 in
     setPositionHistory
       (pushBounded (maxHistoryLength s3) (positionHistory s3)
          {| entry := getAgentPosition s3; time := now |}) s3,
     {| reward := snd (getReward type gamma lr w h s); isDone := false |}).
Proof.
  intro Hs. unfold step.
  rewrite (surjective_pairing (getReward type gamma lr w h s)).
  rewrite isSuccess_getReward, Hs. reflexivity.
Qed.

(** C1. When the distance from agent to goal is below [successThreshold] at
    the start of [step], the call increments [successCount], puts the agent
    back at the spawn point (width/4, height/2) with zero velocity, empties
    [positionHistory], sets [initialDistance] and [previousDistance] to
    null, and returns reward 1.0 with [isDone] true; neither the returned
    pair nor the new state depends on the regime or its parameters. *)
Theorem step_success_transition :
  forall (P : Physics) (s : SimulationEngine) (now : num) (type : string)
         (gamma lr w h : num),
    (getDistance s <? successThreshold s)%js = true ->
    let s' := fst (step now type gamma lr w h s) in
    let res := snd (step now type gamma lr w h s) in
    successCount s' = S (successCount s) /\
    position (agent s')
    = {| x := (width s / Fin 4)%js; y := (height s / Fin 2)%js |} /\
    velocity (agent s') = zero /\
    agentVelocity s' = zero /\
    positionHistory s' = [] /\
    initialDistance s' = None /\
    previousDistance s' = None /\
    res = {| reward := Fin 1; isDone := true |} /\
    (forall (now' : num) (type' : string) (gamma' lr' w' h' : num),
        step now' type' gamma' lr' w' h' s = step now type gamma lr w h s).
Proof.
  intros P s now type gamma lr w h Hd s' res.
  assert (Hs : isSuccess s = true) by exact Hd.
  subst s' res. rewrite (@step_success P now type gamma lr w h s Hs).
  cbn [fst snd].
  refine (conj _ (conj _ (conj _ (conj _ (conj _ (conj _ (conj _ (conj _ _))))))));
    try reflexivity.
  intros now' type' gamma' lr' w' h'.
  rewrite (@step_success P now' type' gamma' lr' w' h' s Hs). reflexivity.
Qed.

Lemma getDistance_engine_at_280 : getDistance engine_at_280 = Fin 20.
Proof.
  rewrite (@getDistance_at engine_at_280 280 150 300 150 eq_refl eq_refl).
  rewrite distR_horizontal by lra. f_equal. lra.
Qed.

Lemma step_success_transition_witness :
  (getDistance engine_at_280 <? successThreshold engine_at_280)%js = true /\
  snd (@step kinematic (Fin 0) "prm" (Fin 0.9) (Fin 0.1) (Fin 400) (Fin 300)
         engine_at_280)
  = {| reward := Fin 1; isDone := true |}.
Proof.
  assert (H : (getDistance engine_at_280 <? successThreshold engine_at_280)%js
              = true).
  { rewrite getDistance_engine_at_280. apply ltb_Fin_true. lra. }
  split; [exact H |].
  apply (@step_success_transition kinematic engine_at_280 (Fin 0) "prm"
           (Fin 0.9) (Fin 0.1) (Fin 400) (Fin 300) H).
Defined.

(** ** The bounded history *)

Lemma pushBounded_below (A : Type) (cap : nat) (h : list A) (e : A) :
  (List.length h < cap)%nat -> pushBounded cap h e = h ++ [e].
Proof.
  intro Hlt. unfold pushBounded. rewrite length_app. cbn [List.length].
  destruct (Nat.ltb_spec cap (List.length h + 1)); [lia | reflexivity].
Qed.

Lemma pushBounded_full (A : Type) (cap : nat) (h : list A) (e : A) :
  (cap <= List.length h)%nat -> h <> [] -> pushBounded cap h e = tl h ++ [e].
Proof.
  intros Hle Hne. unfold pushBounded. rewrite length_app. cbn [List.length].
  destruct (Nat.ltb_spec cap (List.length h + 1)); [| lia].
  destruct h as [| a h]; [contradiction | reflexivity].
Qed.

Lemma pushBounded_length (A : Type) (cap : nat) (h : list A) (e : A) :
  (List.length h <= cap)%nat -> (List.length (pushBounded cap h e) <= cap)%nat.
Proof.
  intro Hle. unfold pushBounded.
  destruct (Nat.ltb_spec cap (List.length (h ++ [e]))) as [Hover | Hfit].
  - rewrite length_app in Hover. cbn [List.length] in Hover.
    destruct h as [| a h]; cbn [tl app List.length] in *; [lia |].
    rewrite length_app. cbn [List.length]. lia.
  - exact Hfit.
Qed.

Lemma isSuccess_engine_moving : isSuccess engine_moving = false.
Proof.
  unfold isSuccess.
  rewrite (@getDistance_at engine_moving 100 150 300 150 eq_refl eq_refl).
  rewrite distR_horizontal by lra. apply ltb_Fin_false. lra.
Qed.

(** C4, counterexample. With the kinematic integrator the agent of
    [engine_moving] ends the tick 196 px from the goal, but
    [previousDistance] holds 200, the distance before the move: it is not
    updated after the physics advance. *)
Lemma previousDistance_not_post_advance :
  let s' := fst (@step kinematic (Fin 0) "shaping" (Fin 0.9) (Fin 0.1)
                   (Fin 400) (Fin 300) engine_moving) in
  previousDistance s' = Some (Fin 200) /\
  getDistance s' = Fin 196 /\
  200 <> 196.
Proof.
  cbv zeta.
  rewrite (@step_continue kinematic (Fin 0) "shaping" (Fin 0.9) (Fin 0.1)
             (Fin 400) (Fin 300) engine_moving isSuccess_engine_moving).
  cbv zeta. cbn [fst]. split; [| split; [| lra]].
  - cbn [previousDistance setPositionHistory setAgent getReward fst
           setDistances].
    rewrite (@getDistance_at engine_moving 100 150 300 150 eq_refl eq_refl).
    rewrite distR_horizontal by lra. do 2 f_equal. lra.
  - unfold getDistance.
    change (getAgentPosition _) with (at_ (100 + 4) (150 + 0)).
    change (getGoalPosition _) with (at_ 300 150).
    rewrite euclidean_at. unfold distR.
    replace ((100 + 4 - 300) ^ 2 + (150 + 0 - 150) ^ 2) with (196 * 196)
      by ring.
    rewrite sqrt_square by lra. reflexivity.
Qed.

(** C4, amended. In a tick that is not a success, [step] returns the reward
    that [getReward] computes on the state before the move, with [isDone]
    false; [previousDistance] is written during that reward evaluation, to
    the distance before the move, and not touched afterwards; the stored
    velocity is then handed to the physics, which advances; the agent's new
    position is appended last to [positionHistory], and the oldest entry is
    dropped when the history would exceed [maxHistoryLength]. *)
Theorem step_order :
  forall (P : Physics) (s : SimulationEngine) (now : num) (type : string)
         (gamma lr w h : num),
    isSuccess s = false ->
    let s' := fst (step now type gamma lr w h s) in
    let res := snd (step now type gamma lr w h s) in
    let e := {| entry := getAgentPosition s'; time := now |} in
    res = {| reward := snd (getReward type gamma lr w h s); isDone := false |} /\
    previousDistance s' = Some (getDistance s) /\
    agent s'
    = Engine_update (Fin 1000 / Fin 60)%js
        (Body_setVelocity (agent s) (agentVelocity s)) /\
    positionHistory s' = pushBounded (maxHistoryLength s) (positionHistory s) e /\
    ((List.length (positionHistory s) < maxHistoryLength s)%nat ->
     positionHistory s' = positionHistory s ++ [e]) /\
    ((maxHistoryLength s <= List.length (positionHistory s))%nat ->
     positionHistory s <> [] ->
     positionHistory s' = tl (positionHistory s) ++ [e]) /\
    ((List.length (positionHistory s) <= maxHistoryLength s)%nat ->
     (List.length (positionHistory s') <= maxHistoryLength s)%nat).
Proof.
  intros P s now type gamma lr w h Hs s' res e.
  assert (Hhist : positionHistory s'
                  = pushBounded (maxHistoryLength s) (positionHistory s) e).
  { subst e s'. rewrite (@step_continue P now type gamma lr w h s Hs).
    reflexivity. }
  refine (conj _ (conj _ (conj _ (conj Hhist (conj _ (conj _ _)))))).
  - subst res. rewrite (@step_continue P now type gamma lr w h s Hs).
    reflexivity.
  - subst s'. rewrite (@step_continue P now type gamma lr w h s Hs).
    reflexivity.
  - subst s'. rewrite (@step_continue P now type gamma lr w h s Hs).
    reflexivity.
  - intro Hlt. rewrite Hhist. apply pushBounded_below, Hlt.
  - intros Hle Hne. rewrite Hhist. apply pushBounded_full; assumption.
  - intro Hle. rewrite Hhist. apply pushBounded_length, Hle.
Qed.

Lemma step_order_witness :
  isSuccess engine_moving = false /\
  previousDistance
    (fst (@step kinematic (Fin 0) "shaping" (Fin 0.9) (Fin 0.1) (Fin 400)
            (Fin 300) engine_moving))
  = Some (getDistance engine_moving).
Proof.
  split; [exact isSuccess_engine_moving |].
  apply (@step_order kinematic engine_moving (Fin 0) "shaping" (Fin 0.9)
           (Fin 0.1) (Fin 400) (Fin 300) isSuccess_engine_moving).
Defined.

(* ================================================================== *)
(** ** The tick on the boundary of the success threshold *)
(* ================================================================== *)

Lemma updateAgent_stop (type : string) (gamma lr w h cr : num)
  (s : SimulationEngine) (m : Position) :
  (getDistance s <=? successThreshold s)%js = true ->
  updateAgent type gamma lr w h cr (s, m)
  = (updateAgentVelocity (Fin 0) (Fin 0) s, zero).
Proof. intro H. unfold updateAgent. rewrite H. reflexivity. Qed.

(** C9. In a tick where the distance from agent to goal is exactly
    [successThreshold], [updateAgent] (whose check is [<=]) stores the zero
    velocity and zeroes the momentum, while [isSuccess] (whose check is [<])
    is false: [step] hands the zero velocity to the physics, leaves
    [successCount] alone and returns [isDone] false with the regime's own
    reward (0 under 'sparse'), not the terminal pair; the same holds of the
    whole iteration of [animate]. *)
Theorem boundary_tick_stops_without_success :
  forall (P : Physics) (s : SimulationEngine) (d : R) (m : Position)
         (pol : PolicyState) (cr now : num) (type : string)
         (gamma lr w h : num),
    getDistance s = Fin d ->
    successThreshold s = Fin d ->
    let st := updateAgent type gamma lr w h cr (s, m) in
    let s1 := fst st in
    let out := step now type gamma lr w h s1 in
    let it := animateIteration now type gamma lr w h (s, pol) in
    agentVelocity s1 = zero /\
    snd st = zero /\
    isSuccess s1 = false /\
    snd out
    = {| reward := snd (getReward type gamma lr w h s1); isDone := false |} /\
    snd (getReward "sparse" gamma lr w h s1) = Fin 0 /\
    successCount (fst out) = successCount s /\
    agent (fst out)
    = Engine_update (Fin 1000 / Fin 60)%js (Body_setVelocity (agent s) zero) /\
    isDone (snd it) = false /\
    momentum (snd (fst it)) = zero /\
    agentVelocity (fst (fst it)) = zero.
Proof.
  intros P s d m pol cr now type gamma lr w h Hd Hth st s1 out it.
  assert (Hle : (getDistance s <=? successThreshold s)%js = true).
  { rewrite Hd, Hth. apply leb_Fin. lra. }
  assert (Hst : st = (updateAgentVelocity (Fin 0) (Fin 0) s, zero))
    by (apply updateAgent_stop, Hle).
  assert (Hs1 : s1 = updateAgentVelocity (Fin 0) (Fin 0) s)
    by (subst s1; rewrite Hst; reflexivity).
  assert (Hnot : isSuccess s1 = false).
  { rewrite Hs1. change (ltb (getDistance s) (successThreshold s) = false).
    rewrite Hd, Hth. apply ltb_Fin_false. lra. }
  pose proof (@step_continue P now type gamma lr w h s1 Hnot) as Hout.
  fold out in Hout.
  refine (conj _ (conj _ (conj Hnot (conj _ (conj _ (conj _ (conj _ _))))))).
  - rewrite Hs1. reflexivity.
  - rewrite Hst. reflexivity.
  - rewrite Hout. reflexivity.
  - rewrite Hs1. unfold getReward. cbn [snd String.eqb Ascii.eqb Bool.eqb].
    change (getDistance (updateAgentVelocity (Fin 0) (Fin 0) s))
      with (getDistance s).
    cbn [successThreshold setDistances updateAgentVelocity].
    rewrite Hd, Hth, ltb_Fin_false by lra. reflexivity.
  - rewrite Hout, Hs1. reflexivity.
  - rewrite Hout, Hs1. reflexivity.
  - (* the iteration of [animate]: reward, then policy, then step *)
    set (s0 := fst (getReward type gamma lr w h s)).
    assert (Hle0 : (getDistance s0 <=? successThreshold s0)%js = true)
      by exact Hle.
    assert (Hnot0 : isSuccess (updateAgentVelocity (Fin 0) (Fin 0) s0) = false).
    { change (ltb (getDistance s) (successThreshold s) = false).
      rewrite Hd, Hth. apply ltb_Fin_false. lra. }
    assert (Hit : it
                  = (let o := step now type gamma lr w h
                                (updateAgentVelocity (Fin 0) (Fin 0) s0) in
                     (fst o,
                      {| momentum := zero;
                         rewardHistory :=
                           pushBounded 10 (rewardHistory pol) (reward (snd o));
                         lastReward := reward (snd o) |},
                      snd o))).
    { subst it. unfold animateIteration.
      rewrite (surjective_pairing (getReward type gamma lr w h s)).
      fold s0.
      rewrite (@updateAgent_stop type gamma lr w h
                 (snd (getReward type gamma lr w h s)) s0 (momentum pol) Hle0).
      rewrite (@step_continue P now type gamma lr w h _ Hnot0).
      reflexivity. }
    rewrite Hit.
    rewrite (@step_continue P now type gamma lr w h _ Hnot0).
    repeat split.
Qed.

Lemma getDistance_engine_at_265 : getDistance engine_at_265 = Fin 35.
Proof.
  rewrite (@getDistance_at engine_at_265 265 150 300 150 eq_refl eq_refl).
  rewrite distR_horizontal by lra. f_equal. lra.
Qed.

Lemma boundary_tick_stops_without_success_witness :
  getDistance engine_at_265 = Fin 35 /\
  successThreshold engine_at_265 = Fin 35 /\
  isDone
    (snd (@animateIteration kinematic (Fin 0) "semantic" (Fin 0.9) (Fin 0.1)
            (Fin 400) (Fin 300)
            (engine_at_265,
             {| momentum := at_ 1 0; rewardHistory := [];
                lastReward := Fin 0 |})))
  = false.
Proof.
  split; [exact getDistance_engine_at_265 | split; [reflexivity |]].
  apply (@boundary_tick_stops_without_success kinematic engine_at_265 35
           (at_ 1 0)
           {| momentum := at_ 1 0; rewardHistory := []; lastReward := Fin 0 |}
           (Fin 0) (Fin 0) "semantic" (Fin 0.9) (Fin 0.1) (Fin 400) (Fin 300)
           getDistance_engine_at_265 eq_refl).
Defined.

(* ================================================================== *)
(** ** Continuous progress reward *)
(* ================================================================== *)

Lemma progressR_range (i d : R) : 0 < i -> 0 <= d -> 0 <= progressR i d <= 1.
Proof.
  intros Hi Hd. unfold progressR. split; [apply Rmax_l |].
  apply Rmax_lub; [lra |].
  apply (Rmult_le_reg_r i); [exact Hi |].
  unfold Rdiv. rewrite Rmult_assoc, Rinv_l by lra. lra.
Qed.

(** [calculatePRMReward] with a positive initial distance. *)
Lemma calculatePRMReward_at (ax ay gx gy i lr : R) :
  0 < i ->
  calculatePRMReward (at_ ax ay) (at_ gx gy) (Some (Fin i)) (Fin lr)
  = Fin (lr * progressR i (distR ax ay gx gy)).
Proof.
  intro Hi. unfold calculatePRMReward. rewrite euclidean_at.
  rewrite eqb_Fin_false by lra. cbn [sub neg add].
  rewrite div_Fin by lra. rewrite max_Fin. reflexivity.
Qed.

(** The standalone function satisfies all three parts of the progress
    contract: range, zero at the initial distance, zero under the guard. *)
Lemma calculatePRMReward_contract (ax ay gx gy i lr : R) :
  0 <= i -> 0 <= lr ->
  (exists r, calculatePRMReward (at_ ax ay) (at_ gx gy) (Some (Fin i)) (Fin lr)
             = Fin r /\ 0 <= r <= lr) /\
  (distR ax ay gx gy = i ->
   calculatePRMReward (at_ ax ay) (at_ gx gy) (Some (Fin i)) (Fin lr) = Fin 0) /\
  calculatePRMReward (at_ ax ay) (at_ gx gy) None (Fin lr) = Fin 0 /\
  calculatePRMReward (at_ ax ay) (at_ gx gy) (Some (Fin 0)) (Fin lr) = Fin 0.
Proof.
  intros Hi Hlr.
  assert (Hguard : calculatePRMReward (at_ ax ay) (at_ gx gy) (Some (Fin 0))
                     (Fin lr) = Fin 0).
  { unfold calculatePRMReward. rewrite (proj2 (eqb_Fin 0 0) eq_refl).
    reflexivity. }
  pose proof (distR_nonneg ax ay gx gy) as Hd.
  destruct Hi as [Hi | <-].
  - rewrite (calculatePRMReward_at ax ay gx gy i lr Hi).
    pose proof (progressR_range _ _ Hi Hd) as Hp.
    refine (conj _ (conj _ (conj eq_refl Hguard))).
    + eexists; split; [reflexivity | nra].
    + intros ->. f_equal. unfold progressR.
      replace ((i - i) / i) with 0 by (field; lra).
      rewrite Rmax_left by lra. ring.
  - refine (conj _ (conj (fun _ => Hguard) (conj eq_refl Hguard))).
    exists 0. split; [exact Hguard | lra].
Qed.

(** The 'prm' case of the engine has no guard: when the agent stands on the
    goal and [initialDistance] is null or 0, it divides 0 by 0. *)
Lemma getReward_prm_on_goal (s : SimulationEngine) (gx gy lr : R)
  (gamma w h : num) :
  position (agent s) = at_ gx gy ->
  position (goal s) = at_ gx gy ->
  initialDistance s = None \/ initialDistance s = Some (Fin 0) ->
  snd (getReward "prm" gamma (Fin lr) w h s) = NaN.
Proof.
  intros Ha Hg Hi. unfold getReward. cbn [snd String.eqb Ascii.eqb Bool.eqb].
  rewrite (getDistance_at s _ _ _ _ Ha Hg).
  rewrite (proj2 (distR_zero_iff gx gy gx gy) (conj eq_refl eq_refl)).
  destruct Hi as [-> | ->]; cbn [sub neg add div]; rcmp; reflexivity.
Qed.

(** Away from that point the engine's 'prm' case agrees with the guarded
    function: a positive [initialDistance] gives the progress formula, and
    a null one, off the goal, gives 0. *)
Lemma getReward_prm_at (s : SimulationEngine) (ax ay gx gy i lr : R)
  (gamma w h : num) :
  position (agent s) = at_ ax ay ->
  position (goal s) = at_ gx gy ->
  (initialDistance s = Some (Fin i) -> 0 < i ->
   snd (getReward "prm" gamma (Fin lr) w h s)
   = Fin (lr * progressR i (distR ax ay gx gy))) /\
  (initialDistance s = None -> 0 < distR ax ay gx gy ->
   snd (getReward "prm" gamma (Fin lr) w h s) = Fin 0).
Proof.
  intros Ha Hg. split; intros Hi Hpos; unfold getReward;
    cbn [snd String.eqb Ascii.eqb Bool.eqb];
    rewrite (getDistance_at s _ _ _ _ Ha Hg), Hi; cbn [sub neg add].
  - rewrite div_Fin by lra. rewrite max_Fin. reflexivity.
  - rewrite div_Fin by lra. rewrite max_Fin. cbn [mul]. f_equal.
    replace ((distR ax ay gx gy + - distR ax ay gx gy) / distR ax ay gx gy)
      with 0 by (field; lra).
    rewrite Rmax_left by lra. ring.
Qed.

(** C3, the failing input. An engine built for a canvas of width 0 has its
    agent on its goal, at (0, 150), and a null [initialDistance]: the
    engine's [getReward('prm')] returns [NaN] there, where the claim and the
    guarded [calculatePRMReward] give 0. *)
Theorem prm_engine_unguarded :
  snd (getReward "prm" (Fin 0.9) (Fin 0.1) (Fin 0) (Fin 300)
         (constructor (Fin 0) (Fin 300))) = NaN /\
  calculatePRMReward (at_ 0 150) (at_ 0 150) None (Fin 0.1) = Fin 0 /\
  calculatePRMReward (at_ 0 150) (at_ 0 150) (Some (Fin 0)) (Fin 0.1) = Fin 0.
Proof.
  split.
  - apply (@getReward_prm_on_goal _ 0 150 0.1); [| | left; reflexivity].
    + unfold constructor, at_. cbn [agent position].
      rewrite !div_Fin by lra. do 2 f_equal; lra.
    + unfold constructor, at_. cbn [goal position mul].
      rewrite !div_Fin by lra. do 2 f_equal; lra.
  - split; [reflexivity |].
    unfold calculatePRMReward. rewrite (proj2 (eqb_Fin 0 0) eq_refl).
    reflexivity.
Qed.

(* ================================================================== *)
(** ** The reward-guided policy *)
(* ================================================================== *)












(** *** The sampling loop *)

Section Sampling.

Variables (rewardType : string) (gamma learningRate w h : num).
Variables (sim : SimulationEngine) (agentPos goalPos : Position).
Variable distance : num.





End Sampling.


(** *** "Normalize direction" and the fallback toward the goal *)







(** *** Speed and emitted velocity *)







Lemma distR_engine400x300 : distR 100 150 300 150 = 200.
Proof. rewrite distR_horizontal by lra. lra. Qed.


Section PolicyInDoubles.

Import PrimFloat.
#[local] Set Warnings "-inexact-float".


End PolicyInDoubles.

(* ================================================================== *)
(** ** Unknown regime identifiers *)
(* ================================================================== *)





(* ================================================================== *)
(** ** The animation loop: what one iteration does to engine and policy *)
(* ================================================================== *)

(** [updateAgent] touches nothing of the engine but the stored velocity. *)
Lemma updateAgent_frame (type : string) (gamma lr w h cr : num)
  (s : SimulationEngine) (m : Position) :
  exists vx vy : num,
    fst (updateAgent type gamma lr w h cr (s, m)) = updateAgentVelocity vx vy s.
Proof.
  unfold updateAgent. destruct (leb (getDistance s) (successThreshold s)).
  - exists (Fin 0), (Fin 0). reflexivity.
  - eexists; eexists. reflexivity.
Qed.

(** The two shapes of an iteration of [animate]. *)
Lemma animateIteration_cases `{Physics} (now : num) (type : string)
  (gamma lr w h : num) (s : SimulationEngine) (pol : PolicyState) :
  let s0 := fst (getReward type gamma lr w h s) in
  let cr := snd (getReward type gamma lr w h s) in
  let sm := updateAgent type gamma lr w h cr (s0, momentum pol) in
  let s1 := fst sm in
  let out := step now type gamma lr w h s1 in
  (isSuccess s = true /\
   animateIteration now type gamma lr w h (s, pol)
   = (reset (incrSuccessCount (fst (getReward type gamma lr w h s1))),
      {| momentum := zero; rewardHistory := []; lastReward := Fin 0 |},
      {| reward := Fin 1; isDone := true |})) \/
  (isSuccess s = false /\
   animateIteration now type gamma lr w h (s, pol)
   = (fst out,
      {| momentum := snd sm;
         rewardHistory :=
           pushBounded 10 (rewardHistory pol)
             (snd (getReward type gamma lr w h s1));
         lastReward := snd (getReward type gamma lr w h s1) |},
      {| reward := snd (getReward type gamma lr w h s1); isDone := false |}) /\
   snd out
   = {| reward := snd (getReward type gamma lr w h s1); isDone := false |}).
Proof.
  intros s0 cr sm s1 out.
  assert (Hs1 : isSuccess s1 = isSuccess s).
  { subst s1 sm. destruct (updateAgent_frame type gamma lr w h cr s0 (momentum pol))
      as (vx & vy & ->). reflexivity. }
  assert (Hunf : animateIteration now type gamma lr w h (s, pol)
                 = (if isDone (snd out)
                    then (fst out,
                          {| momentum := zero; rewardHistory := [];
                             lastReward := Fin 0 |}, snd out)
                    else (fst out,
                          {| momentum := snd sm;
                             rewardHistory :=
                               pushBounded 10 (rewardHistory pol)
                                 (reward (snd out));
                             lastReward := reward (snd out) |}, snd out))).
  { unfold animateIteration.
    rewrite (surjective_pairing (getReward type gamma lr w h s)).
    fold s0 cr. rewrite (surjective_pairing (updateAgent _ _ _ _ _ _ _)).
    fold sm s1. rewrite (surjective_pairing (step _ _ _ _ _ _ _)).
    fold out. reflexivity. }
  destruct (isSuccess s) eqn:Hs.
  - left. split; [reflexivity |]. rewrite Hunf. subst out.
    rewrite (step_success now type gamma lr w h s1 Hs1). reflexivity.
  - right. split; [reflexivity |]. rewrite Hunf. subst out.
    rewrite (step_continue now type gamma lr w h s1 Hs1). split; reflexivity.
Qed.

(** What one iteration keeps and what it counts. *)
Lemma animateIteration_keeps `{Physics} (now : num) (type : string)
  (gamma lr w h : num) (s : SimulationEngine) (pol : PolicyState) :
  let it := animateIteration now type gamma lr w h (s, pol) in
  let s' := fst (fst it) in
  let pol' := snd (fst it) in
  same_setup s s' /\
  successCount s' = (successCount s + (if isDone (snd it) then 1 else 0))%nat /\
  isDone (snd it) = isSuccess s /\
  ((List.length (positionHistory s) <= maxHistoryLength s)%nat ->
   (List.length (positionHistory s') <= maxHistoryLength s')%nat) /\
  ((List.length (rewardHistory pol) <= 10)%nat ->
   (List.length (rewardHistory pol') <= 10)%nat).
Proof.
  intros it s' pol'.
  pose proof (animateIteration_cases now type gamma lr w h s pol) as Hc.
  cbv zeta in Hc.
  destruct (updateAgent_frame type gamma lr w h
              (snd (getReward type gamma lr w h s))
              (fst (getReward type gamma lr w h s)) (momentum pol))
    as (vx & vy & Hfr).
  rewrite Hfr in Hc.
  destruct Hc as [[Hs Hit] | (Hs & Hit & _)];
    subst s' pol' it; rewrite Hit; cbn [fst snd isDone]; rewrite Hs.
  - refine (conj _ (conj _ (conj eq_refl (conj _ _)))).
    + repeat split.
    + cbn [successCount reset incrSuccessCount getReward fst setDistances
             updateAgentVelocity]. lia.
    + intros _. cbn [positionHistory reset List.length]. lia.
    + intros _. cbn [rewardHistory List.length]. lia.
  - assert (Hns : isSuccess (updateAgentVelocity vx vy
                               (fst (getReward type gamma lr w h s))) = false)
      by exact Hs.
    rewrite (step_continue now type gamma lr w h _ Hns). cbv zeta. cbn [fst].
    refine (conj _ (conj _ (conj eq_refl (conj _ _)))).
    + repeat split.
    + cbn [successCount setPositionHistory setAgent getReward fst setDistances
             updateAgentVelocity]. lia.
    + intro Hle. cbn [positionHistory maxHistoryLength setPositionHistory
                        setAgent updateAgentVelocity getReward fst
                        setDistances].
      apply pushBounded_length. exact Hle.
    + intro Hle. cbn [rewardHistory]. apply pushBounded_length. exact Hle.
Qed.

Lemma animateFor_cons `{Physics} (now : num) (clock : list num)
  (type : string) (gamma lr w h : num) (st : SimulationEngine * PolicyState) :
  animateFor (now :: clock) type gamma lr w h st
  = (fst (animateFor clock type gamma lr w h
            (fst (animateIteration now type gamma lr w h st))),
     snd (animateIteration now type gamma lr w h st)
       :: snd (animateFor clock type gamma lr w h
                 (fst (animateIteration now type gamma lr w h st)))).
Proof.
  cbn [animateFor].
  destruct (animateIteration now type gamma lr w h st) as [st1 r].
  cbn [fst snd].
  destruct (animateFor clock type gamma lr w h st1) as [st2 rs].
  reflexivity.
Qed.

(** X1. Over any number of iterations of the [animate] loop, for every
    regime and every physics, the engine's [successCount] grows by exactly
    the number of results with [isDone] true (the number the component adds
    to [cumulativeSuccesses]), one result is produced per iteration, and
    [resetSuccessCount] alone brings the counter back to 0. *)
Theorem animate_counts_successes :
  forall (P : Physics) (clock : list num) (type : string)
         (gamma lr w h : num) (s : SimulationEngine) (pol : PolicyState),
    let out := animateFor clock type gamma lr w h (s, pol) in
    successCount (fst (fst out)) = (successCount s + doneCount (snd out))%nat /\
    List.length (snd out) = List.length clock /\
    (successCount s <= successCount (fst (fst out)))%nat /\
    successCount (reset (fst (fst out))) = successCount (fst (fst out)) /\
    successCount (resetSuccessCount (fst (fst out))) = 0%nat.
Proof.
  intros P clock type gamma lr w h s pol out.
  assert (Hmain : successCount (fst (fst out))
                  = (successCount s + doneCount (snd out))%nat /\
                  List.length (snd out) = List.length clock).
  { subst out. revert s pol.
    induction clock as [| now clock IH]; intros s pol.
    - cbn. split; [lia | reflexivity].
    - rewrite animateFor_cons. cbn [fst snd List.length].
      pose proof (animateIteration_keeps now type gamma lr w h s pol) as Hk.
      cbv zeta in Hk. destruct Hk as (_ & Hcount & _).
      destruct (animateIteration now type gamma lr w h (s, pol))
        as [[s1 pol1] r].
      cbn [fst snd] in *. destruct (IH s1 pol1) as [IH1 IH2].
      rewrite IH1, Hcount, IH2. split; [| reflexivity].
      unfold doneCount. cbn [filter]. destruct (isDone r); cbn [List.length]; lia. }
  destruct Hmain as [H1 H2].
  refine (conj H1 (conj H2 (conj _ (conj eq_refl eq_refl)))). lia.
Qed.

(** X2. If the position history and the reward history start within their
    capacities ([maxHistoryLength] and 10), they stay within them after any
    number of iterations of the [animate] loop, on the success path as on
    the other; and no iteration changes the goal, the canvas size, the
    success threshold or the capacity. *)
Theorem animate_keeps_bounds :
  forall (P : Physics) (clock : list num) (type : string)
         (gamma lr w h : num) (s : SimulationEngine) (pol : PolicyState),
    (List.length (positionHistory s) <= maxHistoryLength s)%nat ->
    (List.length (rewardHistory pol) <= 10)%nat ->
    let out := animateFor clock type gamma lr w h (s, pol) in
    let s' := fst (fst out) in
    let pol' := snd (fst out) in
    same_setup s s' /\
    (List.length (positionHistory s') <= maxHistoryLength s')%nat /\
    (List.length (rewardHistory pol') <= 10)%nat.
Proof.
  intros P clock type gamma lr w h. induction clock as [| now clock IH];
    intros s pol Hh Hr out s' pol'.
  - subst s' pol' out. cbn. repeat split; assumption.
  - subst s' pol' out. rewrite animateFor_cons. cbn [fst snd].
    pose proof (animateIteration_keeps now type gamma lr w h s pol) as Hk.
    cbv zeta in Hk. destruct Hk as (Hsame & _ & _ & Hh1 & Hr1).
    destruct (animateIteration now type gamma lr w h (s, pol))
      as [[s1 pol1] r].
    cbn [fst snd] in *.
    specialize (IH s1 pol1 (Hh1 Hh) (Hr1 Hr)). cbv zeta in IH.
    destruct IH as (Hsame2 & Hh2 & Hr2).
    refine (conj _ (conj Hh2 Hr2)).
    destruct Hsame as (a1 & a2 & a3 & a4 & a5).
    destruct Hsame2 as (b1 & b2 & b3 & b4 & b5).
    unfold same_setup. rewrite b1, b2, b3, b4, b5. repeat split; assumption.
Qed.

Lemma animate_keeps_bounds_witness :
  (List.length (positionHistory engine400x300)
   <= maxHistoryLength engine400x300)%nat /\
  (List.length (positionHistory
                  (fst (fst (@animateFor kinematic [Fin 1; Fin 2; Fin 3]
                               "semantic" (Fin 0.9) (Fin 0.1) (Fin 400)
                               (Fin 300)
                               (engine400x300,
                                {| momentum := zero; rewardHistory := [];
                                   lastReward := Fin 0 |})))))
   <= 10)%nat.
Proof.
  assert (H1 : (List.length (positionHistory engine400x300)
                <= maxHistoryLength engine400x300)%nat) by (cbn; lia).
  assert (H2 : (List.length
                  (rewardHistory {| momentum := zero; rewardHistory := [];
                                    lastReward := Fin 0 |}) <= 10)%nat)
    by (cbn; lia).
  split; [exact H1 |].
  pose proof (@animate_keeps_bounds kinematic [Fin 1; Fin 2; Fin 3] "semantic"
                (Fin 0.9) (Fin 0.1) (Fin 400) (Fin 300) engine400x300
                {| momentum := zero; rewardHistory := []; lastReward := Fin 0 |}
                H1 H2) as H.
  cbv zeta in H. destruct H as ((_ & _ & _ & _ & Hcap) & Hlen & _).
  rewrite Hcap in Hlen. exact Hlen.
Defined.

(** X3. In the [animate] loop [getReward] runs twice per iteration, once
    for the policy and once inside [step]; the first call leaves
    [previousDistance] at the current distance d, so under 'shaping' the
    reward that [step] returns in a tick that is not a success is
    gamma * (-d) - (-d), computed from d alone, whatever [previousDistance]
    was before the iteration, whereas [step] called alone on an engine
    whose [previousDistance] is p returns gamma * (-d) - (-p). *)
Theorem animate_shaping_reward_ignores_progress :
  forall (P : Physics) (s : SimulationEngine) (pol : PolicyState)
         (p now gamma lr w h : num),
    isSuccess s = false ->
    snd (animateIteration now "shaping" gamma lr w h (s, pol))
    = {| reward := (gamma * - getDistance s - - getDistance s)%js;
         isDone := false |} /\
    (previousDistance s = Some p ->
     snd (step now "shaping" gamma lr w h s)
     = {| reward := (gamma * - getDistance s - - p)%js; isDone := false |}).
Proof.
  intros P s pol p now gamma lr w h Hns.
  split.
  - pose proof (animateIteration_cases now "shaping" gamma lr w h s pol)
      as Hc. cbv zeta in Hc.
    destruct Hc as [[Hs _] | (_ & Hit & _)]; [congruence |].
    rewrite Hit. cbn [snd]. f_equal.
    destruct (updateAgent_frame "shaping" gamma lr w h
                (snd (getReward "shaping" gamma lr w h s))
                (fst (getReward "shaping" gamma lr w h s))
                (momentum pol)) as (vx & vy & ->).
    reflexivity.
  - intro Hp. rewrite (step_continue now "shaping" gamma lr w h s Hns).
    cbn [snd]. f_equal. unfold getReward.
    cbn [snd String.eqb Ascii.eqb Bool.eqb]. rewrite Hp. reflexivity.
Qed.

Lemma isSuccess_engine400x300 : isSuccess engine400x300 = false.
Proof.
  unfold isSuccess.
  rewrite (getDistance_at engine400x300 100 150 300 150 eq_refl eq_refl).
  rewrite distR_engine400x300. apply ltb_Fin_false. lra.
Qed.

Lemma animate_shaping_reward_ignores_progress_witness :
  isSuccess engine400x300 = false /\
  snd (@animateIteration kinematic (Fin 0) "shaping" (Fin 0.9) (Fin 0.1)
         (Fin 400) (Fin 300)
         (engine400x300,
          {| momentum := zero; rewardHistory := []; lastReward := Fin 0 |}))
  = {| reward := (Fin 0.9 * - getDistance engine400x300
                  - - getDistance engine400x300)%js;
       isDone := false |}.
Proof.
  split; [exact isSuccess_engine400x300 |].
  apply (@animate_shaping_reward_ignores_progress kinematic engine400x300
           {| momentum := zero; rewardHistory := []; lastReward := Fin 0 |}
           (Fin 0) (Fin 0) (Fin 0.9) (Fin 0.1) (Fin 400) (Fin 300)
           isSuccess_engine400x300).
Defined.

(** The distance from the spawn point to the goal of a canvas of width
    [wd]. *)
Lemma spawn_to_goal (wd ht : R) :
  0 <= wd -> distR (wd / 4) (ht / 2) (wd * 0.75) (ht / 2) = wd / 2.
Proof.
  intro H. rewrite distR_horizontal by lra. lra.
Qed.

(** X4. After a success tick the agent is back at the spawn point, wd/2 from
    a goal that sits where the constructor puts it. So with
    [successThreshold] <= wd/2 (as for the 400 px canvas and threshold 35)
    the next tick is never a success: one crossing counts once. With
    wd/2 < [successThreshold] (a canvas narrower than 70 px) the next tick
    is a success again, and so on at every tick. *)
Theorem success_then_respawn :
  forall (P : Physics) (s : SimulationEngine) (wd ht gx gy theta : R)
         (now now' : num) (type type' : string)
         (gamma lr w h gamma' lr' w' h' : num),
    width s = Fin wd -> height s = Fin ht ->
    position (goal s) = at_ gx gy ->
    gx = wd * 0.75 -> gy = ht / 2 ->
    successThreshold s = Fin theta ->
    0 <= wd ->
    isSuccess s = true ->
    let s1 := fst (step now type gamma lr w h s) in
    getDistance s1 = Fin (wd / 2) /\
    (theta <= wd / 2 ->
     isDone (snd (step now' type' gamma' lr' w' h' s1)) = false) /\
    (wd / 2 < theta ->
     isDone (snd (step now' type' gamma' lr' w' h' s1)) = true /\
     getDistance (fst (step now' type' gamma' lr' w' h' s1)) = Fin (wd / 2)).
Proof.
  intros P s wd ht gx gy theta now now' type type' gamma lr w h
    gamma' lr' w' h' Hw Hh Hg Hgx Hgy Hth Hwd Hs s1.
  assert (Hs1 : s1 = reset (incrSuccessCount (fst (getReward type gamma lr w h s))))
    by (subst s1; rewrite (step_success now type gamma lr w h s Hs);
        reflexivity).
  assert (Hreset : forall t : SimulationEngine,
             width t = Fin wd -> height t = Fin ht ->
             position (goal t) = at_ gx gy ->
             getDistance (reset t) = Fin (wd / 2)).
  { intros t Htw Hth' Htg.
    rewrite (getDistance_at (reset t) (wd / 4) (ht / 2) gx gy).
    - subst gx gy. rewrite spawn_to_goal by exact Hwd. reflexivity.
    - cbn [reset agent position Body_setVelocity Body_setPosition].
      rewrite Htw, Hth'. rewrite !div_Fin by lra. reflexivity.
    - exact Htg. }
  assert (Hd1 : getDistance s1 = Fin (wd / 2)).
  { rewrite Hs1. apply Hreset; assumption. }
  assert (Hth1 : successThreshold s1 = Fin theta)
    by (rewrite Hs1; exact Hth).
  refine (conj Hd1 (conj _ _)).
  - intro Hle.
    assert (Hns : isSuccess s1 = false).
    { unfold isSuccess. rewrite Hd1, Hth1. apply ltb_Fin_false. exact Hle. }
    rewrite (step_continue now' type' gamma' lr' w' h' s1 Hns). reflexivity.
  - intro Hlt.
    assert (Hss : isSuccess s1 = true).
    { unfold isSuccess. rewrite Hd1, Hth1. apply ltb_Fin_true. exact Hlt. }
    rewrite (step_success now' type' gamma' lr' w' h' s1 Hss).
    split; [reflexivity |]. cbn [fst]. apply Hreset; rewrite Hs1; assumption.
Qed.

Lemma isSuccess_engine_at_280 : isSuccess engine_at_280 = true.
Proof.
  unfold isSuccess. rewrite getDistance_engine_at_280.
  apply ltb_Fin_true. lra.
Qed.

Lemma success_then_respawn_witness :
  isSuccess engine_at_280 = true /\
  isDone
    (snd (@step kinematic (Fin 1) "sparse" (Fin 0.9) (Fin 0.1) (Fin 400)
            (Fin 300)
            (fst (@step kinematic (Fin 0) "sparse" (Fin 0.9) (Fin 0.1)
                    (Fin 400) (Fin 300) engine_at_280))))
  = false.
Proof.
  split; [exact isSuccess_engine_at_280 |].
  assert (Hgx : 300 = 400 * 0.75) by lra.
  assert (Hgy : 150 = 300 / 2) by lra.
  assert (Hwd : 0 <= 400) by lra.
  assert (Hle : 35 <= 400 / 2) by lra.
  exact (proj1 (proj2
           (@success_then_respawn kinematic engine_at_280 400 300 300 150 35
              (Fin 0) (Fin 1) "sparse" "sparse"
              (Fin 0.9) (Fin 0.1) (Fin 400) (Fin 300)
              (Fin 0.9) (Fin 0.1) (Fin 400) (Fin 300)
              eq_refl eq_refl eq_refl Hgx Hgy eq_refl Hwd
              isSuccess_engine_at_280)) Hle).
Defined.

(* ================================================================== *)
(** ** The policy: momentum and selection *)
(* ================================================================== *)





(** The body of the sampling loop, on the test position of the sample. *)
Lemma trySample_testPosAt (type : string) (gamma lr w h : num)
  (sim : SimulationEngine) (agentPos goalPos : Position) (distance : num)
  (best : Position * num) (sm : Sample) :
  trySample type gamma lr w h sim agentPos goalPos distance best sm
  = if gtb (expectedRewardAt type gamma lr w h sim goalPos distance
              (testPosAt w h agentPos sm)) (snd best)
    then (offset sm,
          expectedRewardAt type gamma lr w h sim goalPos distance
            (testPosAt w h agentPos sm))
    else best.
Proof. reflexivity. Qed.

(** The outcome of the sampling loop on finite expected rewards. *)
Lemma fold_trySample_select :
  forall (type : string) (gamma lr w h : num) (sim : SimulationEngine)
         (agentPos goalPos : Position) (distance : num) (f : Sample -> R)
         (l : list Sample) (c : R),
    (forall sm, In sm l ->
        expectedRewardAt type gamma lr w h sim goalPos distance
          (testPosAt w h agentPos sm) = Fin (f sm)) ->
    let best :=
      fold_left
        (trySample type gamma lr w h sim agentPos goalPos distance)
        l (zero, Fin c) in
    (best = (zero, Fin c) /\ forall sm, In sm l -> f sm <= c) \/
    (exists (pre : list Sample) (sm : Sample) (post : list Sample),
        l = pre ++ sm :: post /\
        best = (offset sm, Fin (f sm)) /\
        c < f sm /\
        (forall sm', In sm' pre -> f sm' < f sm) /\
        (forall sm', In sm' post -> f sm' <= f sm)).
Proof.
  intros type gamma lr w h sim agentPos goalPos distance f l c Hf best.
  subst best. generalize zero as d0. revert c.
  induction l as [| sm l IH]; intros c d0.
  - left. split; [reflexivity | intros sm []].
  - cbn [fold_left]. rewrite trySample_testPosAt.
    rewrite (Hf sm (or_introl eq_refl)). cbn [snd]. unfold gtb.
    assert (Hf' : forall sm0, In sm0 l ->
               expectedRewardAt type gamma lr w h sim goalPos distance
                 (testPosAt w h agentPos sm0) = Fin (f sm0))
      by (intros sm0 Hin; apply Hf; right; exact Hin).
    destruct (Rlt_dec c (f sm)) as [Hgt | Hle].
    + rewrite ltb_Fin_true by exact Hgt.
      destruct (IH Hf' (f sm) (offset sm))
        as [[Heq Hall] | (pre & sm2 & post & Hl & Heq & Hc & Hpre & Hpost)].
      * right. exists [], sm, l.
        refine (conj eq_refl (conj Heq (conj Hgt (conj _ Hall)))).
        intros sm' [].
      * right. exists (sm :: pre), sm2, post.
        refine (conj _ (conj Heq (conj _ (conj _ Hpost)))).
        -- rewrite Hl. reflexivity.
        -- lra.
        -- intros sm' [<- | Hin]; [exact Hc | apply Hpre, Hin].
    + rewrite ltb_Fin_false by lra.
      destruct (IH Hf' c d0)
        as [[Heq Hall] | (pre & sm2 & post & Hl & Heq & Hc & Hpre & Hpost)].
      * left. split; [exact Heq |].
        intros sm' [<- | Hin]; [lra | apply Hall, Hin].
      * right. exists (sm :: pre), sm2, post.
        refine (conj _ (conj Heq (conj Hc (conj _ Hpost)))).
        -- rewrite Hl. reflexivity.
        -- intros sm' [<- | Hin]; [lra | apply Hpre, Hin].
Qed.

(** X6. When the expected rewards of the samples are finite (f gives them)
    and the current reward is c, the sampling loop either selects nothing
    and keeps (zero, c), exactly when no sample's expected reward exceeds c,
    or it ends on a sample whose expected reward is strictly above c,
    strictly above that of every earlier sample and at least that of every
    later one: the first sample of maximal expected reward wins. *)
Theorem sampling_selects_first_maximum :
  forall (type : string) (gamma lr w h : num) (sim : SimulationEngine)
         (agentPos goalPos : Position) (distance : num) (f : Sample -> R)
         (l : list Sample) (c : R),
    (forall sm, In sm l ->
        expectedRewardAt type gamma lr w h sim goalPos distance
          (testPosAt w h agentPos sm) = Fin (f sm)) ->
    let best :=
      fold_left
        (trySample type gamma lr w h sim agentPos goalPos distance)
        l (zero, Fin c) in
    (best = (zero, Fin c) /\ forall sm, In sm l -> f sm <= c) \/
    (exists (pre : list Sample) (sm : Sample) (post : list Sample),
        l = pre ++ sm :: post /\
        best = (offset sm, Fin (f sm)) /\
        c < f sm /\
        (forall sm', In sm' pre -> f sm' < f sm) /\
        (forall sm', In sm' post -> f sm' <= f sm)).
Proof.
  intros type gamma lr w h sim agentPos goalPos distance f l c Hf.
  exact (fold_trySample_select type gamma lr w h sim agentPos goalPos distance
           f l c Hf).
Qed.

Lemma expectedRewardAt_sparse (gamma lr w h : num) (sim : SimulationEngine)
  (agentPos goalPos : Position) (distance : num) (sm : Sample) :
  expectedRewardAt "sparse" gamma lr w h sim goalPos distance
    (testPosAt w h agentPos sm)
  = Fin (sparseExpected w h sim agentPos goalPos sm).
Proof.
  unfold expectedRewardAt, sparseExpected, calculateSparseReward.
  cbn [String.eqb Ascii.eqb Bool.eqb].
  destruct (ltb _ (successThreshold sim)); reflexivity.
Qed.

Lemma sampling_selects_first_maximum_witness :
  (forall sm, In sm samples ->
      expectedRewardAt "sparse" (Fin 0.9) (Fin 0.1) (Fin 400) (Fin 300)
        engine400x300 (at_ 300 150) (Fin 200)
        (testPosAt (Fin 400) (Fin 300) (at_ 100 150) sm)
      = Fin (sparseExpected (Fin 400) (Fin 300) engine400x300 (at_ 100 150)
               (at_ 300 150) sm)) /\
  let best :=
    fold_left
      (trySample "sparse" (Fin 0.9) (Fin 0.1) (Fin 400) (Fin 300)
         engine400x300 (at_ 100 150) (at_ 300 150) (Fin 200))
      samples (zero, Fin 0) in
  let f := sparseExpected (Fin 400) (Fin 300) engine400x300 (at_ 100 150)
             (at_ 300 150) in
  (best = (zero, Fin 0) /\ forall sm, In sm samples -> f sm <= 0) \/
  (exists (pre : list Sample) (sm : Sample) (post : list Sample),
      samples = pre ++ sm :: post /\
      best = (offset sm, Fin (f sm)) /\
      0 < f sm /\
      (forall sm', In sm' pre -> f sm' < f sm) /\
      (forall sm', In sm' post -> f sm' <= f sm)).
Proof.
  assert (H : forall sm, In sm samples ->
      expectedRewardAt "sparse" (Fin 0.9) (Fin 0.1) (Fin 400) (Fin 300)
        engine400x300 (at_ 300 150) (Fin 200)
        (testPosAt (Fin 400) (Fin 300) (at_ 100 150) sm)
      = Fin (sparseExpected (Fin 400) (Fin 300) engine400x300 (at_ 100 150)
               (at_ 300 150) sm))
    by (intros sm _; apply expectedRewardAt_sparse).
  split; [exact H |].
  exact (sampling_selects_first_maximum "sparse" (Fin 0.9) (Fin 0.1) (Fin 400)
           (Fin 300) engine400x300 (at_ 100 150) (at_ 300 150) (Fin 200)
           (sparseExpected (Fin 400) (Fin 300) engine400x300 (at_ 100 150)
              (at_ 300 150))
           samples 0 H).
Defined.

(** *** The sparse plateau *)






(* ================================================================== *)
(** ** The gradient overlay *)
(* ================================================================== *)

Lemma Zfloor_range (lo hi : Z) (r : R) :
  IZR lo <= r -> r <= IZR hi -> (lo <= Zfloor r <= hi)%Z.
Proof.
  intros Hlo Hhi. split; [apply Zfloor_lub, Hlo |].
  apply le_IZR. pose proof (Zfloor_bound r). lra.
Qed.

(** A byte stored in the pixel array is read back unchanged. *)
Lemma toUint8Clamp_byte (z : Z) :
  (0 <= z <= 255)%Z -> toUint8Clamp (Fin (IZR z)) = z.
Proof.
  intros [H0 H255]. unfold toUint8Clamp.
  destruct (Z.eq_dec z 0) as [-> | Hnz].
  - rewrite Rcmp_Eq by reflexivity. reflexivity.
  - assert (Hpos : 0 < IZR z) by (apply (IZR_lt 0); lia).
    rewrite Rcmp_Gt by exact Hpos.
    destruct (Z.eq_dec z 255) as [-> | Hn255].
    + rewrite Rcmp_Eq by reflexivity. reflexivity.
    + assert (Hlt : IZR z < 255) by (apply (IZR_lt z 255); lia).
      rewrite (Rcmp_Lt _ _ Hlt). cbv zeta. rewrite ZfloorZ.
      rewrite Rcmp_Lt by lra. reflexivity.
Qed.

Lemma toUint8Clamp_floor (lo hi : Z) (r : R) :
  (0 <= lo)%Z -> (hi <= 255)%Z -> IZR lo <= r -> r <= IZR hi ->
  toUint8Clamp (Math_floor (Fin r)) = Zfloor r /\ (lo <= Zfloor r <= hi)%Z.
Proof.
  intros H0 H255 Hlo Hhi.
  pose proof (Zfloor_range lo hi r Hlo Hhi) as Hr.
  split; [| exact Hr]. cbn [Math_floor]. apply toUint8Clamp_byte. lia.
Qed.

Lemma intensityR_range (r : R) : 0 <= intensityR r <= 1.
Proof.
  unfold intensityR. split; [apply Rmax_l |].
  apply Rmax_lub; [lra | apply Rmin_l].
Qed.

Lemma intensityR_mono (r r' : R) : r <= r' -> intensityR r <= intensityR r'.
Proof.
  intro H. unfold intensityR.
  apply Rmax_lub; [apply Rmax_l |].
  apply Rle_trans with (Rmin 1 r'); [| apply Rmax_r].
  apply Rmin_glb; [apply Rmin_l |].
  apply Rle_trans with r; [apply Rmin_r | exact H].
Qed.

Lemma pixelColor_Fin (r : R) :
  map toUint8Clamp (pixelColor (Fin r))
  = [0%Z; greenByte (intensityR r); blueByte (intensityR r); 100%Z] /\
  (0 <= greenByte (intensityR r) <= 255)%Z /\
  (100 <= blueByte (intensityR r) <= 255)%Z.
Proof.
  pose proof (intensityR_range r) as Hi.
  unfold pixelColor. rewrite min_Fin, max_Fin. fold (intensityR r).
  set (i := intensityR r) in *.
  assert (H0 : toUint8Clamp (Fin 0) = 0%Z) by (apply (toUint8Clamp_byte 0); lia).
  assert (H100 : toUint8Clamp (Fin 100) = 100%Z)
    by (apply (toUint8Clamp_byte 100); lia).
  unfold greenByte, blueByte.
  destruct (Rlt_dec i 0.5) as [Hlt | Hge].
  - rewrite ltb_Fin_true by exact Hlt. cbn [map mul add sub neg].
    destruct (toUint8Clamp_floor 0 100 (i * 2 * 100)) as [Hg Hgr];
      [lia | lia | lra | lra |].
    destruct (toUint8Clamp_floor 100 255 (100 + i * 2 * 155)) as [Hb Hbr];
      [lia | lia | lra | lra |].
    rewrite H0, H100, Hg, Hb.
    split; [reflexivity |].
    split; (split; [eapply Z.le_trans; [| first [apply Hgr | apply Hbr]]; lia
                   | eapply Z.le_trans; [first [apply Hgr | apply Hbr] |]; lia]).
  - rewrite ltb_Fin_false by lra. cbn [map mul add sub neg].
    destruct (toUint8Clamp_floor 100 255 (100 + (i + - (0.5)) * 2 * 155))
      as [Hg Hgr]; [lia | lia | lra | lra |].
    destruct (toUint8Clamp_floor 155 255 (255 + - ((i + - (0.5)) * 2 * 100)))
      as [Hb Hbr]; [lia | lia | lra | lra |].
    rewrite H0, H100, Hg, Hb.
    split; [reflexivity |].
    split; (split; [eapply Z.le_trans; [| first [apply Hgr | apply Hbr]]; lia
                   | eapply Z.le_trans; [first [apply Hgr | apply Hbr] |]; lia]).
Qed.

Lemma pixelColor_NaN : map toUint8Clamp (pixelColor NaN) = [0%Z; 0%Z; 0%Z; 100%Z].
Proof.
  unfold pixelColor. cbn [max min ltb map Math_floor add sub mul neg].
  rewrite (toUint8Clamp_byte 0) by lia.
  rewrite (toUint8Clamp_byte 100) by lia. reflexivity.
Qed.

Lemma greenByte_mono (i i' : R) :
  0 <= i -> i <= i' -> i' <= 1 -> (greenByte i <= greenByte i')%Z.
Proof.
  intros H0 Hle H1. unfold greenByte.
  destruct (Rlt_dec i 0.5) as [Hi | Hi]; destruct (Rlt_dec i' 0.5) as [Hi' | Hi'].
  - apply Zfloor_le. lra.
  - apply Z.le_trans with 100%Z.
    + apply (Zfloor_range 0 100); lra.
    + apply (Zfloor_range 100 255); lra.
  - lra.
  - apply Zfloor_le. lra.
Qed.

(** X8. For a finite reward the four bytes stored for a pixel are red 0,
    alpha 100, a green byte in 0..255 and a blue byte in 100..255; the green
    byte never decreases when the reward grows; a reward <= 0 gives
    (0, 0, 100, 100), a reward >= 1 gives (0, 255, 155, 100), and a [NaN]
    reward gives (0, 0, 0, 100). *)
Theorem pixel_bytes :
  forall r r' : R,
    let bytes := fun v : num => map toUint8Clamp (pixelColor v) in
    (exists g b : Z,
        bytes (Fin r) = [0%Z; g; b; 100%Z] /\
        (0 <= g <= 255)%Z /\ (100 <= b <= 255)%Z) /\
    (r <= r' -> (nth 1 (bytes (Fin r)) 0 <= nth 1 (bytes (Fin r')) 0)%Z) /\
    (r <= 0 -> bytes (Fin r) = [0%Z; 0%Z; 100%Z; 100%Z]) /\
    (1 <= r -> bytes (Fin r) = [0%Z; 255%Z; 155%Z; 100%Z]) /\
    bytes NaN = [0%Z; 0%Z; 0%Z; 100%Z].
Proof.
  intros r r' bytes. subst bytes. cbv beta.
  destruct (pixelColor_Fin r) as (Heq & Hg & Hb).
  destruct (pixelColor_Fin r') as (Heq' & _ & _).
  refine (conj _ (conj _ (conj _ (conj _ pixelColor_NaN)))).
  - exists (greenByte (intensityR r)), (blueByte (intensityR r)).
    refine (conj Heq (conj Hg Hb)).
  - intro Hle. rewrite Heq, Heq'. cbn [nth].
    pose proof (intensityR_range r). pose proof (intensityR_range r').
    apply greenByte_mono; [lra | apply intensityR_mono, Hle | lra].
  - intro H0. rewrite Heq.
    assert (Hi : intensityR r = 0).
    { unfold intensityR. rewrite Rmin_right by lra. apply Rmax_left. exact H0. }
    rewrite Hi. unfold greenByte, blueByte.
    destruct (Rlt_dec 0 0.5) as [_ | Hn]; [| lra].
    rewrite (Zfloor_eq 0) by lra. rewrite (Zfloor_eq 100) by lra. reflexivity.
  - intro H1. rewrite Heq.
    assert (Hi : intensityR r = 1).
    { unfold intensityR. rewrite Rmin_left by lra. apply Rmax_right. lra. }
    rewrite Hi. unfold greenByte, blueByte.
    destruct (Rlt_dec 1 0.5) as [Hn | _]; [lra |].
    rewrite (Zfloor_eq 255) by lra. rewrite (Zfloor_eq 155) by lra. reflexivity.
Qed.

(** *** The layout of the pixel array *)

Lemma length_setAt (i : nat) (v : Z) (data : list Z) :
  List.length (setAt i v data) = List.length data.
Proof.
  revert i. induction data as [| a t IH]; intros [| i]; cbn; try reflexivity.
  rewrite IH. reflexivity.
Qed.

Lemma nth_setAt_same (i : nat) (v d : Z) (data : list Z) :
  (i < List.length data)%nat -> nth i (setAt i v data) d = v.
Proof.
  revert i. induction data as [| a t IH]; intros [| i] H; cbn in *;
    try lia; try reflexivity.
  apply IH. lia.
Qed.

Lemma nth_setAt_other (i j : nat) (v d : Z) (data : list Z) :
  i <> j -> nth j (setAt i v data) d = nth j data d.
Proof.
  revert i j. induction data as [| a t IH]; intros [| i] [| j] H; cbn;
    try reflexivity; try lia.
  apply IH. lia.
Qed.

Lemma length_writePixel (idx : nat) (color : list num) (data : list Z) :
  List.length (writePixel idx color data) = List.length data.
Proof. unfold writePixel. rewrite !length_setAt. reflexivity. Qed.

Lemma nth_writePixel_inside (idx k : nat) (color : list num) (data : list Z) :
  (k < 4)%nat -> (idx + 3 < List.length data)%nat ->
  nth (idx + k) (writePixel idx color data) 0%Z
  = toUint8Clamp (nth k color NaN).
Proof.
  intros Hk Hlen. unfold writePixel.
  destruct k as [| [| [| [| k]]]]; try lia.
  - rewrite !(nth_setAt_other _ (idx + 0)) by lia.
    replace (idx + 0)%nat with idx by lia. apply nth_setAt_same. lia.
  - rewrite !(nth_setAt_other _ (idx + 1)) by lia.
    apply nth_setAt_same. rewrite length_setAt. lia.
  - rewrite !(nth_setAt_other _ (idx + 2)) by lia.
    apply nth_setAt_same. rewrite !length_setAt. lia.
  - apply nth_setAt_same. rewrite !length_setAt. lia.
Qed.

Lemma nth_writePixel_outside (idx j : nat) (color : list num) (data : list Z) :
  (j < idx \/ idx + 4 <= j)%nat ->
  nth j (writePixel idx color data) 0%Z = nth j data 0%Z.
Proof.
  intro H. unfold writePixel. rewrite !nth_setAt_other by lia. reflexivity.
Qed.

Lemma length_applyWrites (ws : list (nat * list num)) (data : list Z) :
  List.length (applyWrites ws data) = List.length data.
Proof.
  unfold applyWrites. revert data.
  induction ws as [| wr ws IH]; intro data; [reflexivity |].
  cbn [fold_left]. rewrite IH. apply length_writePixel.
Qed.

Lemma applyWrites_untouched (ws : list (nat * list num)) (j : nat) :
  forall data : list Z,
    (forall wr, In wr ws -> (j < fst wr \/ fst wr + 4 <= j)%nat) ->
    nth j (applyWrites ws data) 0%Z = nth j data 0%Z.
Proof.
  unfold applyWrites. induction ws as [| wr ws IH]; intros data H;
    [reflexivity |].
  cbn [fold_left]. rewrite IH by (intros wr' Hin; apply H; right; exact Hin).
  apply nth_writePixel_outside. apply H. left. reflexivity.
Qed.

(** When the writes go to disjoint blocks of four and each block is always
    given the same colour, a written block holds its colour at the end. *)
Lemma applyWrites_written (ws : list (nat * list num)) (idx k : nat)
  (col : list num) :
  (k < 4)%nat ->
  (forall idx' col', In (idx', col') ws ->
      (idx' = idx /\ col' = col) \/ (idx' + 4 <= idx)%nat \/
      (idx + 4 <= idx')%nat) ->
  forall data : list Z,
    In (idx, col) ws ->
    (idx + 3 < List.length data)%nat ->
    nth (idx + k) (applyWrites ws data) 0%Z = toUint8Clamp (nth k col NaN).
Proof.
  intros Hk. induction ws as [| [i c] ws IH]; intros Hdisj data Hin Hlen;
    [destruct Hin |].
  assert (Hdisj' : forall idx' col', In (idx', col') ws ->
             (idx' = idx /\ col' = col) \/ (idx' + 4 <= idx)%nat \/
             (idx + 4 <= idx')%nat)
    by (intros idx' col' H; apply Hdisj; right; exact H).
  change (applyWrites ((i, c) :: ws) data)
    with (applyWrites ws (writePixel i c data)).
  destruct (in_dec Nat.eq_dec idx (map fst ws)) as [Hidx | Hidx].
  - apply in_map_iff in Hidx. destruct Hidx as ([i' c'] & Hi' & Hin').
    cbn [fst] in Hi'. subst i'.
    destruct (Hdisj' idx c' Hin') as [[_ ->] | [H | H]]; try lia.
    apply IH; [exact Hdisj' | exact Hin' | rewrite length_writePixel; exact Hlen].
  - destruct Hin as [Heq | Hin].
    + inversion Heq; subst i c.
      rewrite applyWrites_untouched.
      * apply nth_writePixel_inside; assumption.
      * intros [i' c'] Hin'. cbn [fst].
        destruct (Hdisj' i' c' Hin') as [[-> _] | [H | H]]; try lia.
        exfalso. apply Hidx. apply in_map_iff. exists (idx, c').
        split; [reflexivity | exact Hin'].
    + exfalso. apply Hidx. apply in_map_iff. exists (idx, col).
      split; [reflexivity | exact Hin].
Qed.

Lemma fold_left_ext (A B : Type) (f g : A -> B -> A) (l : list B) :
  (forall a b, f a b = g a b) -> forall a, fold_left f l a = fold_left g l a.
Proof.
  intro H. induction l as [| b l IH]; intro a; [reflexivity |].
  cbn [fold_left]. rewrite H. apply IH.
Qed.

Lemma fold_left_map (A B C : Type) (f : A -> C -> A) (g : B -> C)
  (l : list B) :
  forall a, fold_left f (map g l) a = fold_left (fun a b => f a (g b)) l a.
Proof.
  induction l as [| b l IH]; intro a; [reflexivity |]. cbn. apply IH.
Qed.

Lemma fold_left_flat_map (A B C : Type) (f : A -> C -> A) (g : B -> list C)
  (l : list B) :
  forall a,
    fold_left f (flat_map g l) a
    = fold_left (fun a b => fold_left f (g b) a) l a.
Proof.
  induction l as [| b l IH]; intro a; [reflexivity |].
  cbn [flat_map fold_left]. rewrite fold_left_app. apply IH.
Qed.

Lemma generateRewardGradient_writes (width height : nat) (goalPos : Position)
  (rewardType : string) (params : GradientParams) :
  generateRewardGradient width height goalPos rewardType params
  = applyWrites (pixelWrites width height goalPos rewardType params)
      (repeat 0%Z (4 * width * height)).
Proof.
  unfold generateRewardGradient, applyWrites, pixelWrites.
  rewrite fold_left_flat_map. apply fold_left_ext. intros data py.
  rewrite fold_left_map. reflexivity.
Qed.

Lemma in_pixelWrites (width height : nat) (goalPos : Position)
  (rewardType : string) (params : GradientParams) (idx : nat)
  (col : list num) :
  In (idx, col) (pixelWrites width height goalPos rewardType params) <->
  exists px py : nat,
    (px < width)%nat /\ (py < height)%nat /\
    idx = ((py * width + px) * 4)%nat /\
    col = pixelColor
            (gradientReward width height goalPos rewardType params px py).
Proof.
  unfold pixelWrites. rewrite in_flat_map. split.
  - intros (py & Hpy & Hin). apply in_map_iff in Hin.
    destruct Hin as (px & Heq & Hpx). apply in_seq in Hpy. apply in_seq in Hpx.
    inversion Heq; subst. exists px, py. repeat split; lia.
  - intros (px & py & Hpx & Hpy & -> & ->). exists py. split.
    + apply in_seq. lia.
    + apply in_map_iff. exists px. split; [reflexivity | apply in_seq; lia].
Qed.

Lemma generateRewardGradient_nth (width height : nat) (goalPos : Position)
  (rewardType : string) (params : GradientParams) (px py k : nat) :
  (px < width)%nat -> (py < height)%nat -> (k < 4)%nat ->
  nth ((py * width + px) * 4 + k)
    (generateRewardGradient width height goalPos rewardType params) 0%Z
  = toUint8Clamp
      (nth k (pixelColor
                (gradientReward width height goalPos rewardType params px py))
         NaN).
Proof.
  intros Hpx Hpy Hk.
  assert (Hbound : ((py * width + px) * 4 + 3 < 4 * width * height)%nat) by nia.
  rewrite generateRewardGradient_writes.
  apply applyWrites_written.
  - exact Hk.
  - intros idx' col' Hin. apply in_pixelWrites in Hin.
    destruct Hin as (px' & py' & Hpx' & Hpy' & -> & ->).
    destruct (Nat.eq_dec (py' * width + px') (py * width + px)) as [He | Hne].
    + left. assert (py' = py) by nia. subst py'.
      assert (px' = px) by lia. subst px'. split; reflexivity.
    + right. lia.
  - apply in_pixelWrites. exists px, py. repeat split; assumption.
  - rewrite repeat_length. exact Hbound.
Qed.

(** X9. The array that [generateRewardGradient] puts on the canvas has
    4 * width * height bytes, and for every pixel (px, py) of the canvas the
    four bytes at index (py * width + px) * 4 are the colour of the reward
    at that pixel: every pixel is written, in row-major order, and no write
    disturbs another pixel; in particular red is 0 and alpha is 100 at
    every pixel with a finite reward. *)
Theorem gradient_layout :
  forall (width height : nat) (goalPos : Position) (rewardType : string)
         (params : GradientParams) (px py k : nat),
    (px < width)%nat -> (py < height)%nat -> (k < 4)%nat ->
    let data := generateRewardGradient width height goalPos rewardType params in
    let reward := gradientReward width height goalPos rewardType params px py in
    List.length data = (4 * width * height)%nat /\
    nth ((py * width + px) * 4 + k) data 0%Z
    = toUint8Clamp (nth k (pixelColor reward) NaN) /\
    (forall r : R, reward = Fin r ->
       nth ((py * width + px) * 4) data 0%Z = 0%Z /\
       nth ((py * width + px) * 4 + 3) data 0%Z = 100%Z).
Proof.
  intros width height goalPos rewardType params px py k Hpx Hpy Hk data reward.
  assert (Hlen : List.length data = (4 * width * height)%nat).
  { subst data. rewrite generateRewardGradient_writes, length_applyWrites.
    apply repeat_length. }
  assert (Hnth : forall k', (k' < 4)%nat ->
             nth ((py * width + px) * 4 + k') data 0%Z
             = toUint8Clamp (nth k' (pixelColor reward) NaN))
    by (intros k' Hk'; apply generateRewardGradient_nth; assumption).
  refine (conj Hlen (conj (Hnth k Hk) _)).
  intros r Hr. destruct (pixelColor_Fin r) as (Hcol & _).
  split.
  - replace ((py * width + px) * 4)%nat with ((py * width + px) * 4 + 0)%nat
      by lia.
    rewrite (Hnth 0%nat) by lia. rewrite Hr.
    rewrite <- (map_nth toUint8Clamp). rewrite Hcol. reflexivity.
  - rewrite (Hnth 3%nat) by lia. rewrite Hr.
    rewrite <- (map_nth toUint8Clamp). rewrite Hcol. reflexivity.
Qed.

Lemma gradient_layout_witness :
  (1 < 2)%nat /\ (0 < 1)%nat /\ (3 < 4)%nat /\
  List.length (generateRewardGradient 2 1 (at_ 0 0) "sparse" noParams)
  = (4 * 2 * 1)%nat.
Proof.
  assert (H1 : (1 < 2)%nat) by lia.
  assert (H2 : (0 < 1)%nat) by lia.
  assert (H3 : (3 < 4)%nat) by lia.
  split; [exact H1 | split; [exact H2 | split; [exact H3 |]]].
  apply (gradient_layout 2 1 (at_ 0 0) "sparse" noParams 1 0 3 H1 H2 H3).
Defined.

(** *** Defaults of the gradient parameters *)

Lemma or_else_zero (d : num) : or_else (Some (Fin 0)) d = d.
Proof. unfold or_else, truthy. rewrite Rcmp_Eq by reflexivity. reflexivity. Qed.

Lemma or_else_nonzero (r : R) (d : num) : r <> 0 -> or_else (Some (Fin r)) d = Fin r.
Proof.
  intro H. unfold or_else, truthy.
  destruct (Rcmp_spec r 0); [contradiction | reflexivity | reflexivity].
Qed.

(** The gradient depends on [params] only through the three values
    [threshold || 30], [gamma || 0.9] and [learningRate || 0.1]. *)
Lemma generateRewardGradient_params (width height : nat) (goalPos : Position)
  (rewardType : string) (p q : GradientParams) :
  or_else (p_threshold p) (Fin 30) = or_else (p_threshold q) (Fin 30) ->
  or_else (p_gamma p) (Fin 0.9) = or_else (p_gamma q) (Fin 0.9) ->
  or_else (p_learningRate p) (Fin 0.1) = or_else (p_learningRate q) (Fin 0.1) ->
  generateRewardGradient width height goalPos rewardType p
  = generateRewardGradient width height goalPos rewardType q.
Proof.
  intros Ht Hg Hl. unfold generateRewardGradient.
  apply fold_left_ext. intros data py. apply fold_left_ext. intros data' px.
  unfold gradientReward. rewrite Ht, Hg, Hl. reflexivity.
Qed.

(** X10. A parameter that is 0 is treated like a missing one, because the
    defaults are taken with [||]: a gradient asked for gamma = 0 (the
    minimum of the slider) is the gradient of gamma = 0.9, one asked for
    learningRate = 0 is that of 0.1, and one asked for threshold = 0 is
    that of 30; the same holds of a [NaN] parameter. *)
Theorem gradient_zero_parameter_is_default :
  forall (width height : nat) (goalPos : Position) (rewardType : string)
         (th ga lr : option num),
    let G := generateRewardGradient width height goalPos rewardType in
    G {| p_threshold := th; p_gamma := Some (Fin 0); p_learningRate := lr |}
    = G {| p_threshold := th; p_gamma := Some (Fin 0.9); p_learningRate := lr |} /\
    G {| p_threshold := th; p_gamma := None; p_learningRate := lr |}
    = G {| p_threshold := th; p_gamma := Some (Fin 0.9); p_learningRate := lr |} /\
    G {| p_threshold := th; p_gamma := Some NaN; p_learningRate := lr |}
    = G {| p_threshold := th; p_gamma := Some (Fin 0.9); p_learningRate := lr |} /\
    G {| p_threshold := th; p_gamma := ga; p_learningRate := Some (Fin 0) |}
    = G {| p_threshold := th; p_gamma := ga; p_learningRate := Some (Fin 0.1) |} /\
    G {| p_threshold := th; p_gamma := ga; p_learningRate := None |}
    = G {| p_threshold := th; p_gamma := ga; p_learningRate := Some (Fin 0.1) |} /\
    G {| p_threshold := Some (Fin 0); p_gamma := ga; p_learningRate := lr |}
    = G {| p_threshold := Some (Fin 30); p_gamma := ga; p_learningRate := lr |} /\
    G {| p_threshold := None; p_gamma := ga; p_learningRate := lr |}
    = G {| p_threshold := Some (Fin 30); p_gamma := ga; p_learningRate := lr |}.
Proof.
  intros width height goalPos rewardType th ga lr G. subst G.
  assert (H9 : or_else (Some (Fin 0.9)) (Fin 0.9) = Fin 0.9)
    by (apply or_else_nonzero; lra).
  assert (H1 : or_else (Some (Fin 0.1)) (Fin 0.1) = Fin 0.1)
    by (apply or_else_nonzero; lra).
  assert (H30 : or_else (Some (Fin 30)) (Fin 30) = Fin 30)
    by (apply or_else_nonzero; lra).
  repeat split; apply generateRewardGradient_params;
    cbn [p_threshold p_gamma p_learningRate];
    rewrite ?or_else_zero, ?H9, ?H1, ?H30; reflexivity.
Qed.

(** *** The sparse and the shaping overlays *)






(* ================================================================== *)
(** ** The first-generation engine: hops *)
(* ================================================================== *)

Lemma gen1_getDistance_at (e : Gen1.Engine) (ax ay gx gy : R) :
  position (Gen1.agent e) = at_ ax ay ->
  position (Gen1.goal e) = at_ gx gy ->
  Gen1.getDistance e = Fin (distR ax ay gx gy).
Proof.
  intros Ha Hg. unfold Gen1.getDistance, Gen1.getAgentPosition,
    Gen1.getGoalPosition. rewrite Ha, Hg. apply euclidean_at.
Qed.

Lemma add_Fin (a b : R) : (Fin a + Fin b)%js = Fin (a + b).
Proof. reflexivity. Qed.

Lemma sub_Fin (a b : R) : (Fin a - Fin b)%js = Fin (a - b).
Proof. reflexivity. Qed.

Lemma mul_Fin (a b : R) : (Fin a * Fin b)%js = Fin (a * b).
Proof. reflexivity. Qed.

Lemma floor_Fin (a : R) : Math_floor (Fin a) = Fin (IZR (Zfloor a)).
Proof. reflexivity. Qed.

Lemma num_or_Fin (a : R) :
  exists den : R,
    num_or (Fin a) (Fin 1) = Fin den /\ den <> 0 /\
    (a <> 0 -> den = a) /\ (a = 0 -> den = 1).
Proof.
  unfold num_or, or_else, truthy. destruct (Rcmp_spec a 0) as [H | H | H].
  - exists 1. split; [reflexivity | split; [lra | split; [intro; contradiction | reflexivity]]].
  - exists a. split; [reflexivity | split; [lra | split; [reflexivity | lra]]].
  - exists a. split; [reflexivity | split; [lra | split; [reflexivity | lra]]].
Qed.

(** The hop computation on reals: with initial distance [I], distance [d]
    and hop size [hs]. *)
Lemma gen1_updatePRMProgress_at (e : Gen1.Engine) (ax ay gx gy hs I : R) :
  position (Gen1.agent e) = at_ ax ay ->
  position (Gen1.goal e) = at_ gx gy ->
  Gen1.hopSize e = Fin hs ->
  0 < hs ->
  Gen1.getInitialDistance e = Fin I ->
  let d := distR ax ay gx gy in
  let k := Zfloor ((I - d) / hs) in
  let start := I - IZR k * hs in
  exists q : R,
    Gen1.currentHop (Gen1.updatePRMProgress e) = Fin (IZR k) /\
    Gen1.hopProgress (Gen1.updatePRMProgress e) = Fin q /\
    d <= start < d + hs /\
    0 <= q <= 1 /\
    q * Rmin hs start = start - d /\
    (start = d -> q = 0).
Proof.
  intros Ha Hg Hhs Hpos HI d k start.
  assert (Hd : Gen1.getDistance e = Fin d) by (apply gen1_getDistance_at; assumption).
  assert (Hd0 : 0 <= d) by apply distR_nonneg.
  pose proof (Zfloor_bound ((I - d) / hs)) as Hk. fold k in Hk.
  assert (Hstart : d <= start < d + hs).
  { subst start. destruct Hk as [Hk1 Hk2].
    apply (Rmult_le_compat_r hs) in Hk1; [| lra].
    apply (Rmult_lt_compat_r hs) in Hk2; [| lra].
    unfold Rdiv in Hk1, Hk2. rewrite Rmult_assoc, Rinv_l, Rmult_1_r in Hk1, Hk2
      by lra. lra. }
  destruct (num_or_Fin (start - Rmax 0 (start - hs)))
    as (den & Hden & Hden0 & Hden1 & Hden2).
  assert (Hprog : Gen1.hopProgress (Gen1.updatePRMProgress e)
                  = Fin (Rmax 0 (Rmin 1 ((start - d) / den)))).
  { unfold Gen1.updatePRMProgress. cbv zeta.
    cbn [Gen1.hopProgress Gen1.setHop Gen1.hopSize].
    change (Gen1.getInitialDistance (Gen1.setHop _ _ e))
      with (Gen1.getInitialDistance e).
    rewrite Hd, HI, Hhs. rewrite sub_Fin, div_Fin by lra.
    rewrite floor_Fin. fold k. rewrite mul_Fin, !sub_Fin. fold start.
    rewrite max_Fin, sub_Fin, Hden. rewrite div_Fin by exact Hden0.
    rewrite min_Fin, max_Fin. reflexivity. }
  assert (Hhop : Gen1.currentHop (Gen1.updatePRMProgress e) = Fin (IZR k)).
  { unfold Gen1.updatePRMProgress. cbv zeta.
    cbn [Gen1.currentHop Gen1.setHop]. rewrite Hd, HI, Hhs.
    rewrite sub_Fin, div_Fin by lra. reflexivity. }
  (* the unclamped progress is already within [0, 1] *)
  assert (Hp : 0 <= (start - d) / den <= 1 /\
               (start - d) / den * Rmin hs start = start - d).
  { destruct (Rle_dec hs start) as [Hbig | Hsmall].
    - assert (Hden' : den = hs).
      { rewrite Hden1; rewrite Rmax_right by lra; lra. }
      rewrite Hden', Rmin_left by lra. split.
      + split.
        * apply Rmult_le_pos; [lra | apply Rlt_le, Rinv_0_lt_compat; lra].
        * apply (Rmult_le_reg_r hs); [lra |].
          unfold Rdiv. rewrite Rmult_assoc, Rinv_l by lra. lra.
      + field. lra.
    - rewrite Rmin_right by lra.
      destruct (Req_dec start 0) as [Hz | Hnz].
      + assert (Hden' : den = 1).
        { apply Hden2. rewrite Rmax_left by lra. lra. }
        rewrite Hden'. assert (d = 0) by lra. split; [| nra].
        replace ((start - d) / 1) with 0 by lra. lra.
      + assert (Hden' : den = start).
        { rewrite Hden1; rewrite Rmax_left by lra; lra. }
        rewrite Hden'. split.
        * split.
          -- apply Rmult_le_pos; [lra | apply Rlt_le, Rinv_0_lt_compat; lra].
          -- apply (Rmult_le_reg_r start); [lra |].
             unfold Rdiv. rewrite Rmult_assoc, Rinv_l by lra. lra.
        * field. exact Hnz. }
  destruct Hp as [Hp1 Hp2].
  exists ((start - d) / den).
  refine (conj Hhop (conj _ (conj Hstart (conj Hp1 (conj Hp2 _))))).
  - rewrite Hprog. f_equal. rewrite Rmin_right by lra. apply Rmax_right. lra.
  - intro Heq. rewrite Heq. unfold Rdiv. replace (d - d) with 0 by ring.
    apply Rmult_0_l.
Qed.




(** X14. The first [step] of the first-generation engine on an empty
    history (after construction and after [reset]) takes the agent's own
    position as the initial one, whatever it is: [currentHop] and
    [hopProgress] are both 0, and that position becomes the single entry of
    the history. *)
Theorem gen1_first_step_no_progress :
  forall (P : Physics) (now : num) (e : Gen1.Engine) (ax ay gx gy hs : R),
    position (Gen1.agent e) = at_ ax ay ->
    position (Gen1.goal e) = at_ gx gy ->
    Gen1.hopSize e = Fin hs ->
    0 < hs ->
    Gen1.positionHistory e = [] ->
    Gen1.currentHop (Gen1.step now e) = Fin 0 /\
    Gen1.hopProgress (Gen1.step now e) = Fin 0 /\
    ((1 <= Gen1.maxHistoryLength e)%nat ->
     Gen1.positionHistory (Gen1.step now e)
     = [ {| entry := at_ ax ay; time := now |} ]) /\
    Gen1.positionHistory (Gen1.reset e) = [].
Proof.
  intros P now e ax ay gx gy hs Ha Hg Hhs Hpos Hhist.
  set (e1 := if neqb (x (Gen1.agentVelocity e)) (Fin 0)
                || neqb (y (Gen1.agentVelocity e)) (Fin 0)
             then Gen1.setAgent
                    (Body_setVelocity (Gen1.agent e) (Gen1.agentVelocity e)) e
             else e).
  assert (He1 : position (Gen1.agent e1) = at_ ax ay /\
                Gen1.goal e1 = Gen1.goal e /\ Gen1.hopSize e1 = Gen1.hopSize e /\
                Gen1.positionHistory e1 = [] /\
                Gen1.maxHistoryLength e1 = Gen1.maxHistoryLength e).
  { subst e1. destruct (_ || _); cbn; repeat split; assumption. }
  destruct He1 as (Ha1 & Hg1 & Hs1 & Hh1 & Hm1).
  assert (Hpos1 : Gen1.getAgentPosition e1 = at_ ax ay)
    by (unfold Gen1.getAgentPosition; rewrite Ha1; reflexivity).
  set (e2 := Gen1.setPositionHistory
               (pushBounded (Gen1.maxHistoryLength e1) (Gen1.positionHistory e1)
                  {| entry := Gen1.getAgentPosition e1; time := now |}) e1).
  assert (Hstep : Gen1.step now e
                  = Gen1.setAgent
                      (Engine_update (Fin 1000 / Fin 60)%js
                         (Gen1.agent (Gen1.updatePRMProgress e2)))
                      (Gen1.updatePRMProgress e2)) by reflexivity.
  assert (Hh2 : Gen1.positionHistory e2
                = if (Gen1.maxHistoryLength e <? 1)%nat then []
                  else [ {| entry := at_ ax ay; time := now |} ]).
  { subst e2. cbn [Gen1.positionHistory Gen1.setPositionHistory].
    rewrite Hh1, Hm1, Hpos1. unfold pushBounded. cbn [app List.length].
    destruct (Gen1.maxHistoryLength e <? 1)%nat; reflexivity. }
  assert (Ha2 : position (Gen1.agent e2) = at_ ax ay) by exact Ha1.
  assert (Hg2 : position (Gen1.goal e2) = at_ gx gy)
    by (change (Gen1.goal e2) with (Gen1.goal e1); rewrite Hg1; exact Hg).
  assert (Hs2 : Gen1.hopSize e2 = Fin hs)
    by (change (Gen1.hopSize e2) with (Gen1.hopSize e1); rewrite Hs1; exact Hhs).
  assert (HI : Gen1.getInitialDistance e2 = Fin (distR ax ay gx gy)).
  { unfold Gen1.getInitialDistance. rewrite Hh2.
    destruct (Gen1.maxHistoryLength e <? 1)%nat.
    - apply gen1_getDistance_at; assumption.
    - cbn [entry]. unfold Gen1.getGoalPosition. rewrite Hg2. apply euclidean_at. }
  destruct (gen1_updatePRMProgress_at e2 ax ay gx gy hs (distR ax ay gx gy)
              Ha2 Hg2 Hs2 Hpos HI) as (q & Hk & Hq & _ & _ & _ & Hq0).
  cbv zeta in Hk, Hq0.
  assert (Hk0 : Zfloor ((distR ax ay gx gy - distR ax ay gx gy) / hs) = 0%Z).
  { apply Zfloor_eq. replace (distR ax ay gx gy - distR ax ay gx gy) with 0 by ring.
    unfold Rdiv. rewrite Rmult_0_l. lra. }
  rewrite Hk0 in Hk, Hq0.
  assert (Hqz : q = 0) by (apply Hq0; lra).
  rewrite Hstep. cbn [Gen1.currentHop Gen1.hopProgress Gen1.positionHistory
                        Gen1.setAgent].
  refine (conj Hk (conj _ (conj _ eq_refl))).
  - rewrite Hq, Hqz. reflexivity.
  - intro Hcap.
    change (Gen1.positionHistory (Gen1.updatePRMProgress e2))
      with (Gen1.positionHistory e2).
    rewrite Hh2. destruct (Nat.ltb_spec (Gen1.maxHistoryLength e) 1);
      [lia | reflexivity].
Qed.

Lemma gen1_first_step_no_progress_witness :
  0 < 50 /\
  Gen1.hopProgress
    (@Gen1.step kinematic (Fin 0) (Gen1.reset gen1_engine)) = Fin 0.
Proof.
  assert (H50 : 0 < 50) by lra.
  split; [exact H50 |].
  assert (Ha : position (Gen1.agent (Gen1.reset gen1_engine))
               = at_ (400 / 4) (300 / 2)).
  { cbn [Gen1.reset Gen1.agent position Body_setVelocity Body_setPosition
           gen1_engine Gen1.width Gen1.height].
    rewrite !div_Fin by lra. reflexivity. }
  apply (@gen1_first_step_no_progress kinematic (Fin 0)
           (Gen1.reset gen1_engine) (400 / 4) (300 / 2) 300 150 50
           Ha eq_refl eq_refl H50 eq_refl).
Defined.

(* ================================================================== *)
(** ** The chart data *)
(* ================================================================== *)

Lemma last_snoc (A : Type) (l : list A) (a d : A) : last (l ++ [a]) d = a.
Proof. apply last_last. Qed.

Lemma sliceLast_snoc_full (A : Type) (l : list A) (a : A) :
  List.length l = 100%nat -> sliceLast 100 (l ++ [a]) = tl l ++ [a].
Proof.
  intro Hlen. unfold sliceLast. rewrite length_app. cbn [List.length].
  replace (List.length l + 1 - 100)%nat with 1%nat by lia.
  destruct l as [| b l]; [discriminate | reflexivity].
Qed.

(** X15. [handleSuccess] appends to the chart data a copy of its last entry
    (of the all-zero entry when the data is empty) in which only the
    reporting regime's count is replaced; a chart that holds at most 100
    entries still does afterwards, a full one dropping its oldest entry;
    in [successes] only the reporting regime's count changes. *)
Theorem handleSuccess_chart :
  forall (rewardType other : string) (count : num) (prev : Counts)
         (prevData : list Counts),
    (List.length prevData <= 100)%nat ->
    let st := handleSuccess rewardType count (prev, prevData) in
    let newEntry := last (snd st) zeroCounts in
    newEntry rewardType = Some count /\
    (other <> rewardType ->
     newEntry other = last prevData zeroCounts other /\
     fst st other = prev other) /\
    fst st rewardType = Some count /\
    List.length (snd st) = Nat.min (List.length prevData + 1) 100 /\
    ((List.length prevData < 100)%nat ->
     snd st = prevData ++ [withKey (last prevData zeroCounts) rewardType count]) /\
    (List.length prevData = 100%nat ->
     snd st
     = tl prevData ++ [withKey (last prevData zeroCounts) rewardType count]).
Proof.
  intros rewardType other count prev prevData Hlen st newEntry.
  set (e := withKey (last prevData zeroCounts) rewardType count).
  assert (Hdata : snd st = if (100 <? List.length (prevData ++ [e]))%nat
                           then sliceLast 100 (prevData ++ [e])
                           else prevData ++ [e]) by reflexivity.
  assert (Hlast : newEntry = e).
  { subst newEntry. rewrite Hdata. rewrite length_app. cbn [List.length].
    destruct (Nat.ltb_spec 100 (List.length prevData + 1)).
    - rewrite sliceLast_snoc_full by lia. apply last_snoc.
    - apply last_snoc. }
  assert (Hself : forall o : Counts, withKey o rewardType count rewardType = Some count)
    by (intro o; unfold withKey; rewrite String.eqb_refl; reflexivity).
  assert (Hother : forall o : Counts,
             other <> rewardType -> withKey o rewardType count other = o other).
  { intros o Hne. unfold withKey.
    rewrite (proj2 (String.eqb_neq _ _) Hne). reflexivity. }
  refine (conj _ (conj _ (conj (Hself prev) (conj _ (conj _ _))))).
  - rewrite Hlast. apply Hself.
  - intro Hne. rewrite Hlast. split; apply Hother; exact Hne.
  - rewrite Hdata, length_app. cbn [List.length].
    destruct (Nat.ltb_spec 100 (List.length prevData + 1)).
    + rewrite sliceLast_snoc_full by lia. rewrite length_app. cbn [List.length].
      destruct prevData; cbn [tl List.length] in *; lia.
    + rewrite length_app. cbn [List.length]. lia.
  - intro Hlt. rewrite Hdata, length_app. cbn [List.length].
    destruct (Nat.ltb_spec 100 (List.length prevData + 1)); [lia | reflexivity].
  - intro Hfull. rewrite Hdata, length_app. cbn [List.length].
    destruct (Nat.ltb_spec 100 (List.length prevData + 1)); [| lia].
    apply sliceLast_snoc_full, Hfull.
Qed.

Lemma handleSuccess_chart_witness :
  (List.length (@nil Counts) <= 100)%nat /\
  last (snd (handleSuccess "prm" (Fin 3) (zeroCounts, []))) zeroCounts
    "prm"%string
  = Some (Fin 3).
Proof.
  assert (H : (List.length (@nil Counts) <= 100)%nat) by (cbn; lia).
  split; [exact H |].
  apply (handleSuccess_chart "prm" "sparse" (Fin 3) zeroCounts [] H).
Defined.

(* ================================================================== *)
(** ** The reference distance of an episode *)
(* ================================================================== *)

Lemma animateIteration_initialDistance `{Physics} (now : num) (type : string)
  (gamma lr w h : num) (s : SimulationEngine) (pol : PolicyState) :
  isSuccess s = false ->
  initialDistance (fst (fst (animateIteration now type gamma lr w h (s, pol))))
  = Some (match initialDistance s with
          | Some i => i
          | None => getDistance s
          end).
Proof.
  intro Hs.
  pose proof (animateIteration_cases now type gamma lr w h s pol) as Hc.
  cbv zeta in Hc. destruct Hc as [[Hs' _] | (_ & Hit & _)]; [congruence |].
  rewrite Hit. cbn [fst].
  destruct (updateAgent_frame type gamma lr w h
              (snd (getReward type gamma lr w h s))
              (fst (getReward type gamma lr w h s)) (momentum pol))
    as (vx & vy & ->).
  assert (Hns : isSuccess (updateAgentVelocity vx vy
                             (fst (getReward type gamma lr w h s))) = false)
    by exact Hs.
  rewrite (step_continue now type gamma lr w h _ Hns). cbv zeta. cbn [fst].
  cbn [initialDistance setPositionHistory setAgent getReward fst setDistances
         updateAgentVelocity].
  destruct (initialDistance s); reflexivity.
Qed.

Lemma animateFor_initialDistance_kept `{Physics} (clock : list num)
  (type : string) (gamma lr w h : num) :
  forall (s : SimulationEngine) (pol : PolicyState) (I : num),
    initialDistance s = Some I ->
    doneCount (snd (animateFor clock type gamma lr w h (s, pol))) = 0%nat ->
    initialDistance (fst (fst (animateFor clock type gamma lr w h (s, pol))))
    = Some I.
Proof.
  induction clock as [| now clock IH]; intros s pol I HI Hdone; [exact HI |].
  rewrite animateFor_cons in *. cbn [fst snd] in *.
  pose proof (animateIteration_keeps now type gamma lr w h s pol) as Hk.
  cbv zeta in Hk. destruct Hk as (_ & _ & Hd & _).
  pose proof (animateIteration_initialDistance now type gamma lr w h s pol) as Hi.
  destruct (animateIteration now type gamma lr w h (s, pol)) as [[s1 pol1] r].
  cbn [fst snd] in *. unfold doneCount in Hdone. cbn [filter] in Hdone.
  destruct (isDone r) eqn:Hr; [cbn in Hdone; lia |].
  apply IH; [| exact Hdone].
  rewrite Hi by (rewrite <- Hd; reflexivity). rewrite HI. reflexivity.
Qed.

(** X17. Through any non-empty run of iterations of the [animate] loop in
    which no result has [isDone] true, [initialDistance] ends as the value
    it had at the start, or, when it was null, as the distance at the first
    reward evaluation of the run: the reference of the progress reward is
    fixed once per episode, whatever the physics does. *)
Theorem animate_keeps_initial_distance :
  forall (P : Physics) (now : num) (clock : list num) (type : string)
         (gamma lr w h : num) (s : SimulationEngine) (pol : PolicyState),
    doneCount (snd (animateFor (now :: clock) type gamma lr w h (s, pol)))
    = 0%nat ->
    initialDistance
      (fst (fst (animateFor (now :: clock) type gamma lr w h (s, pol))))
    = Some (match initialDistance s with
            | Some i => i
            | None => getDistance s
            end).
Proof.
  intros P now clock type gamma lr w h s pol Hdone.
  rewrite animateFor_cons in *. cbn [fst snd] in *.
  pose proof (animateIteration_keeps now type gamma lr w h s pol) as Hk.
  cbv zeta in Hk. destruct Hk as (_ & _ & Hd & _).
  pose proof (animateIteration_initialDistance now type gamma lr w h s pol) as Hi.
  destruct (animateIteration now type gamma lr w h (s, pol)) as [[s1 pol1] r].
  cbn [fst snd] in *. unfold doneCount in Hdone. cbn [filter] in Hdone.
  destruct (isDone r) eqn:Hr; [cbn in Hdone; lia |].
  apply animateFor_initialDistance_kept; [| exact Hdone].
  apply Hi. rewrite <- Hd. reflexivity.
Qed.

Lemma animate_keeps_initial_distance_witness :
  doneCount
    (snd (@animateFor kinematic [Fin 1] "prm" (Fin 0.9) (Fin 0.1) (Fin 400)
            (Fin 300)
            (engine400x300,
             {| momentum := zero; rewardHistory := []; lastReward := Fin 0 |})))
  = 0%nat /\
  initialDistance
    (fst (fst (@animateFor kinematic [Fin 1] "prm" (Fin 0.9) (Fin 0.1)
                 (Fin 400) (Fin 300)
                 (engine400x300,
                  {| momentum := zero; rewardHistory := [];
                     lastReward := Fin 0 |}))))
  = Some (getDistance engine400x300).
Proof.
  assert (Hns : isSuccess engine400x300 = false).
  { unfold isSuccess.
    rewrite (getDistance_at engine400x300 100 150 300 150 eq_refl eq_refl).
    rewrite distR_engine400x300. apply ltb_Fin_false. lra. }
  assert (Hdone :
    doneCount
      (snd (@animateFor kinematic [Fin 1] "prm" (Fin 0.9) (Fin 0.1) (Fin 400)
              (Fin 300)
              (engine400x300,
               {| momentum := zero; rewardHistory := [];
                  lastReward := Fin 0 |}))) = 0%nat).
  { rewrite animateFor_cons. cbn [snd animateFor].
    pose proof (@animateIteration_keeps kinematic (Fin 1) "prm" (Fin 0.9)
                  (Fin 0.1) (Fin 400) (Fin 300) engine400x300
                  {| momentum := zero; rewardHistory := [];
                     lastReward := Fin 0 |}) as Hk.
    cbv zeta in Hk. destruct Hk as (_ & _ & Hd & _).
    unfold doneCount. cbn [filter]. rewrite Hd, Hns. reflexivity. }
  split; [exact Hdone |].
  apply (@animate_keeps_initial_distance kinematic (Fin 1) [] "prm" (Fin 0.9)
           (Fin 0.1) (Fin 400) (Fin 300) engine400x300
           {| momentum := zero; rewardHistory := []; lastReward := Fin 0 |}
           Hdone).
Defined.
